(** * Messaging core of the property-marketplace client

    A shallow embedding of the conversation hooks ([useConversations],
    [useFetchConversations], [useMessaging]) and of the [ConversationView]
    component, together with a model of the store gateway they talk to.

    - JavaScript values and row objects: [jsval], objects as [gmap string jsval].
    - The store gateway: one [conversations] table with named columns, the
      PostgREST-style queries the hooks issue, insert, rpc.
    - Asynchronous functions: a small free monad [prog] whose [Await] nodes are
      the suspension points of the source; [run] executes one call to
      completion, [Sched] interleaves suspended calls on one event loop and
      [Race] interleaves calls of several clients on one shared store. *)

From stdpp Require Import gmap strings list fin_maps pretty sorting.

(** ** JavaScript values *)

(** The values that occur in conversation and message rows.  Timestamps are
    ISO strings in the source; they are kept as the instant they denote
    ([VTime], milliseconds), which is how the store orders them. *)
Inductive jsval :=
| VUndefined
| VNull
| VNum (n : Z)
| VStr (s : string)
| VStrs (l : list string)
| VTime (t : Z).

#[global] Instance jsval_eq_dec : EqDecision jsval.
Proof. solve_decision. Defined.

#[global] Instance jsval_inhabited : Inhabited jsval := populate VUndefined.

(** A row object / a client-side conversation object. *)
Abbreviation obj := (gmap string jsval).

(** [o.k]: a missing key reads as [undefined]. *)
Definition get (o : obj) (k : string) : jsval := default VUndefined (o !! k).

(** JavaScript truthiness. *)
Definition truthy (v : jsval) : bool :=
  match v with
  | VUndefined | VNull => false
  | VNum n => negb (n =? 0)%Z
  | VStr s => negb (String.eqb s EmptyString)
  | VStrs _ | VTime _ => true
  end.

(** [a || b] *)
Definition js_or (a b : jsval) : jsval := if truthy a then a else b.

(** [v > 0] for the value of an integer column: a number, [null] (which
    converts to 0) or [undefined] (which converts to NaN). *)
Definition js_gt0 (v : jsval) : bool :=
  match v with
  | VNum n => (0 <? n)%Z
  | _ => false
  end.

(** [s || d] for an optional string parameter. *)
Definition str_or (s : option string) (d : string) : string :=
  match s with
  | Some x => if String.eqb x EmptyString then d else x
  | None => d
  end.

(** [s || null] for an optional string parameter. *)
Definition str_or_null (s : option string) : jsval :=
  match s with
  | Some x => if String.eqb x EmptyString then VNull else VStr x
  | None => VNull
  end.

(** [hay.includes(needle)] *)
Fixpoint includes (needle hay : string) : bool :=
  String.prefix needle hay ||
  match hay with
  | EmptyString => false
  | String _ rest => includes needle rest
  end.

(** [!s.trim()]: the string holds white space only.  A string is held as
    the bytes of its UTF-8 encoding, so the white space and line terminators
    that [trim] strips are sequences of one, two or three bytes:
    U+0009..U+000D and U+0020 (one byte); U+00A0 (C2 A0); U+1680 (E1 9A 80);
    U+2000..U+200A, U+2028, U+2029, U+202F (E2 80 80..8A, A8, A9, AF);
    U+205F (E2 81 9F); U+3000 (E3 80 80); U+FEFF (EF BB BF). *)
Definition is_space (a : Ascii.ascii) : bool :=
  bool_decide (Ascii.nat_of_ascii a ∈ [9; 10; 11; 12; 13; 32]).

Definition is_space2 (a b : nat) : bool := (a =? 194) && (b =? 160).

Definition is_space3 (a b c : nat) : bool :=
  (a =? 225) && (b =? 154) && (c =? 128) ||
  (a =? 226) && (b =? 128) &&
    ((128 <=? c) && (c <=? 138) || (c =? 168) || (c =? 169) || (c =? 175)) ||
  (a =? 226) && (b =? 129) && (c =? 159) ||
  (a =? 227) && (b =? 128) && (c =? 128) ||
  (a =? 239) && (b =? 187) && (c =? 191).

Fixpoint blank (s : string) : bool :=
  match s with
  | EmptyString => true
  | String a rest =>
      if is_space a then blank rest
      else
        match rest with
        | EmptyString => false
        | String b rest2 =>
            if is_space2 (Ascii.nat_of_ascii a) (Ascii.nat_of_ascii b) then blank rest2
            else
              match rest2 with
              | EmptyString => false
              | String c rest3 =>
                  is_space3 (Ascii.nat_of_ascii a) (Ascii.nat_of_ascii b)
                            (Ascii.nat_of_ascii c)
                  && blank rest3
              end
        end
  end.

(** The string of the given bytes. *)
Fixpoint bytes (l : list nat) : string :=
  match l with
  | [] => EmptyString
  | n :: l' => String (Ascii.ascii_of_nat n) (bytes l')
  end.

(** The UTF-8 encodings of the code points that [trim] strips. *)
Definition white_space : list (list nat) :=
  [[9]; [10]; [11]; [12]; [13]; [32];
   [194; 160];
   [225; 154; 128];
   [226; 128; 128]; [226; 128; 129]; [226; 128; 130]; [226; 128; 131];
   [226; 128; 132]; [226; 128; 133]; [226; 128; 134]; [226; 128; 135];
   [226; 128; 136]; [226; 128; 137]; [226; 128; 138];
   [226; 128; 168]; [226; 128; 169]; [226; 128; 175];
   [226; 129; 159];
   [227; 128; 128];
   [239; 187; 191]].

(** The concatenation of the encodings [ws]. *)
Definition spaces (ws : list (list nat)) : string :=
  foldr (fun w s => bytes w +:+ s) EmptyString ws.

(** ** The store gateway *)

(** The gateway is the external collaborator of the hooks (a Supabase
    client in the source): a relational store queried with filters, ordering
    and limit.  Its answers are modelled as far as the hooks use them.  The
    gateway answers every request with [{ data, error }]. *)
Record response := Response {
  data : option (list obj);
  error : option string
}.

Definition ok_rows (l : list obj) : response := Response (Some l) None.
Definition failed (msg : string) : response := Response None (Some msg).
Definition resolved : response := Response None None.

(** One persistent table: its column names and its rows in insertion order.
    Every row carries a cell for every column ([VNull] for SQL NULL). *)
Record table := Table {
  columns : list string;
  rows : list obj
}.

(** The store: the conversations table, the messages table and the supply of
    fresh identifiers. *)
Record store := Store {
  conversations_tbl : table;
  messages_tbl : list obj;
  next_id : N
}.

(** Filters of a query. *)
Inductive filter_spec :=
| Contains (col : string) (vals : list string)  (* .contains(col, vals) *)
| Eq (col : string) (v : string).               (* .eq(col, v) *)

Record query := Query {
  q_select : option (list string);   (* None is select star *)
  q_filters : list filter_spec;
  q_order_desc : option string;      (* .order(col, { ascending: false }) *)
  q_limit : option nat
}.

Definition filter_col (f : filter_spec) : string :=
  match f with Contains c _ | Eq c _ => c end.

(** [.contains(col, vals)]: the array cell holds every element of [vals]. *)
Definition cell_contains (cell : jsval) (vals : list string) : bool :=
  match cell with
  | VStrs l => forallb (fun v => bool_decide (v ∈ l)) vals
  | _ => false
  end.

(** [.eq(col, v)] on a text column: SQL equality, never true of NULL. *)
Definition cell_eq (cell : jsval) (v : string) : bool :=
  match cell with
  | VStr s => String.eqb s v
  | _ => false
  end.

Definition matches (f : filter_spec) (r : obj) : bool :=
  match f with
  | Contains c vals => cell_contains (get r c) vals
  | Eq c v => cell_eq (get r c) v
  end.

Definition matches_all (fs : list filter_spec) (r : obj) : bool :=
  forallb (fun f => matches f r) fs.

(** The ordering key of a cell of a timestamp or number column; [None]
    stands for NULL, which the store sorts as larger than every value. *)
Definition sort_key (v : jsval) : option Z :=
  match v with
  | VTime t => Some t
  | VNum n => Some n
  | _ => None
  end.

(** [key_ge a b]: [a] may come before [b] in descending order. *)
Definition key_ge (a b : option Z) : bool :=
  match a, b with
  | None, _ => true
  | Some _, None => false
  | Some x, Some y => (y <=? x)%Z
  end.

Definition row_ge (col : string) (a b : obj) : bool :=
  key_ge (sort_key (get a col)) (sort_key (get b col)).

(** ORDER BY col DESC, as a stable insertion sort. *)
Fixpoint insert_desc (col : string) (x : obj) (l : list obj) : list obj :=
  match l with
  | [] => [x]
  | y :: l' => if row_ge col x y then x :: y :: l' else y :: insert_desc col x l'
  end.

Definition order_desc (col : string) (l : list obj) : list obj :=
  foldr (insert_desc col) [] l.

Definition project (cols : option (list string)) (r : obj) : obj :=
  match cols with
  | None => r
  | Some cs => list_to_map ((fun c => (c, get r c)) <$> cs)
  end.

Definition missing_column (c : string) : string :=
  "column conversations." +:+ c +:+ " does not exist".

(** The first column a query names that the table does not have. *)
Definition unknown_column (t : table) (q : query) : option string :=
  head (filter (fun c => ¬ c ∈ columns t)
          ((filter_col <$> q_filters q) ++
           from_option (fun c => [c]) [] (q_order_desc q) ++
           from_option id [] (q_select q))).

(** SELECT on the conversations table. *)
Definition run_query (t : table) (q : query) : response :=
  match unknown_column t q with
  | Some c => failed (missing_column c)
  | None =>
      let hit := filter (fun r => matches_all (q_filters q) r) (rows t) in
      let ordered := from_option (fun c => order_desc c hit) hit (q_order_desc q) in
      let limited := from_option (fun n => take n ordered) ordered (q_limit q) in
      ok_rows (project (q_select q) <$> limited)
  end.

(** INSERT ... RETURNING: every key must be a column; columns that are not
    given are NULL; the store assigns the id. *)
Definition null_row (t : table) : obj :=
  list_to_map ((fun c => (c, VNull)) <$> columns t).

Definition fresh_id (s : store) : jsval := VStr (pretty (next_id s)).

Definition insert_row (s : store) (new : obj) : store * response :=
  let t := conversations_tbl s in
  match head (filter (fun c => ¬ c ∈ columns t) (fst <$> map_to_list new)) with
  | Some c => (s, failed (missing_column c))
  | None =>
      let r := <["id" := fresh_id s]> (new ∪ null_row t) in
      (Store (Table (columns t) (rows t ++ [r])) (messages_tbl s) (N.succ (next_id s)),
       ok_rows [r])
  end.

(** ** Client state *)

(** The state of the conversations hook
    ([Pick<MessagingState, 'loading' | 'conversations' | 'currentConversation'>]). *)
Record state := State {
  loading : bool;
  conversations : list obj;
  currentConversation : option obj
}.

Definition set_loading (b : bool) (st : state) : state :=
  State b (conversations st) (currentConversation st).
Definition set_conversations (l : list obj) (st : state) : state :=
  State (loading st) l (currentConversation st).
Definition set_current (c : option obj) (st : state) : state :=
  State (loading st) (conversations st) c.

(** The state of the [ConversationView] component. *)
Record view := View {
  selectedFiles : list string;
  isSending : bool
}.

(** One connected client: the hook state, the message list of the messages
    hook, the toasts shown so far, the component state and the wall clock
    read by [new Date()]. *)
Record client := Client {
  ui : state;
  messages : list obj;
  toasts : list string;
  vw : view;
  clock : Z
}.

Definition with_ui (f : state -> state) (c : client) : client :=
  Client (f (ui c)) (messages c) (toasts c) (vw c) (clock c).
Definition with_messages (l : list obj) (c : client) : client :=
  Client (ui c) l (toasts c) (vw c) (clock c).
Definition with_toast (t : string) (c : client) : client :=
  Client (ui c) (messages c) (toasts c ++ [t]) (vw c) (clock c).
Definition with_view (f : view -> view) (c : client) : client :=
  Client (ui c) (messages c) (toasts c) (f (vw c)) (clock c).
Definition with_clock (t : Z) (c : client) : client :=
  Client (ui c) (messages c) (toasts c) (vw c) t.

(** The in-memory snapshot of the facade: conversation list, current
    conversation, message list. *)
Definition snapshot (c : client) : list obj * option obj * list obj :=
  (conversations (ui c), currentConversation (ui c), messages c).

(** ** The hooks that are not part of the sources *)

(** The operations of the messages hook and of the delete hook, as the
    facade calls them.  [sender] is the signed-in user the hook closes over. *)
Inductive hook :=
| SendMessageBase (sender : option string) (cid : jsval) (content : string)
    (attachments : option (list string))
| FetchMessagesBase (cid : jsval)
| MarkMessagesAsRead (cid : jsval)
| DeleteConversation (requester : option string) (cid : jsval).

Definition has_id (cid : jsval) (r : obj) : bool := bool_decide (get r "id" = cid).

Definition participant (u : string) (r : obj) : bool :=
  cell_contains (get r "participants") [u].

Definition update_rows (f : obj -> obj) (cid : jsval) (s : store) : store :=
  let t := conversations_tbl s in
  Store (Table (columns t) ((fun r => if has_id cid r then f r else r) <$> rows t))
        (messages_tbl s) (next_id s).

(** Ascending by [createdAt], stable, so that messages of one instant stay in
    the order of their store-assigned ids. *)
Fixpoint insert_asc (x : obj) (l : list obj) : list obj :=
  match l with
  | [] => [x]
  | y :: l' =>
      if key_ge (sort_key (get y "createdAt")) (sort_key (get x "createdAt"))
      then x :: y :: l' else y :: insert_asc x l'
  end.

(** Modelled from the spec: the messages hook ([useMessages]) is not among the
    sources.  [append] of section 4.2 and [touchOnNewMessage] of section 4.1:
    InvalidMessage when content and attachments are both empty, NotFound when
    the conversation does not resolve, NotAuthorized when the sender is not a
    participant; otherwise the message is appended and the conversation gets
    the new [lastMessageAt] and one more unread message. *)
Definition sendMessageBase (now : Z) (sender : option string) (cid : jsval)
    (content : string) (attachments : option (list string)) (s : store)
    : store * response :=
  match sender with
  | None => (s, failed "NotAuthorized")
  | Some u =>
      let urls := default [] attachments in
      if String.eqb content EmptyString && bool_decide (urls = []) then (s, failed "InvalidMessage")
      else
        match find (has_id cid) (rows (conversations_tbl s)) with
        | None => (s, failed "NotFound")
        | Some conv =>
            if negb (participant u conv) then (s, failed "NotAuthorized")
            else
              let m : obj :=
                {[ "id" := fresh_id s; "conversationId" := cid; "senderId" := VStr u;
                   "content" := VStr content; "attachments" := VStrs urls;
                   "createdAt" := VTime now ]} in
              let touch (r : obj) : obj :=
                <["lastMessageAt" := VTime now]>
                  (<["unreadCount" :=
                       VNum (match get r "unreadCount" with VNum n => n + 1 | _ => 1 end)]> r) in
              let s1 := update_rows touch cid s in
              (Store (conversations_tbl s1) (messages_tbl s ++ [m]) (N.succ (next_id s)),
               resolved)
        end
  end.

(** Modelled from the spec: [listForConversation] of section 4.2, the
    messages of the conversation ascending by [createdAt]. *)
Definition listForConversation (cid : jsval) (s : store) : list obj :=
  foldr insert_asc []
    (filter (fun m => get m "conversationId" = cid) (messages_tbl s)).

(** Modelled from the spec: [markRead] of section 4.2 sets the unread counter
    of the conversation to zero. *)
Definition markMessagesAsRead (cid : jsval) (s : store) : store :=
  update_rows (fun r => <["unreadCount" := VNum 0]> r) cid s.

(** Modelled from the spec: [delete] of section 4.1: NotFound when the id does
    not resolve, NotAuthorized when the requester is not a participant;
    otherwise the conversation and its messages are removed. *)
Definition deleteConversation (requester : option string) (cid : jsval) (s : store)
    : store * response :=
  match find (has_id cid) (rows (conversations_tbl s)) with
  | None => (s, failed "NotFound")
  | Some conv =>
      match requester with
      | Some u =>
          if participant u conv then
            let t := conversations_tbl s in
            (Store (Table (columns t) (filter (fun r => get r "id" ≠ cid) (rows t)))
                   (filter (fun m => get m "conversationId" ≠ cid) (messages_tbl s))
                   (next_id s),
             resolved)
          else (s, failed "NotAuthorized")
      | None => (s, failed "NotAuthorized")
      end
  end.

(** ** Requests and their execution *)

Inductive op :=
| OQuery (q : query)
| OInsert (new : obj)
| ORpc (fn : string)
| OHook (h : hook).

Definition exec_hook (h : hook) (s : store) (c : client) : store * client * response :=
  match h with
  | SendMessageBase sender cid content attachments =>
      let '(s', r) := sendMessageBase (clock c) sender cid content attachments s in
      (s', c, r)
  | FetchMessagesBase cid => (s, with_messages (listForConversation cid s) c, resolved)
  | MarkMessagesAsRead cid => (markMessagesAsRead cid s, c, resolved)
  | DeleteConversation requester cid =>
      let '(s', r) := deleteConversation requester cid s in
      (s', c, r)
  end.

(** One request reaches the store and its answer reaches the client.
    [fault = Some msg] is a request the backend fails with message [msg]
    ([StoreUnavailable], [UploadError]): nothing is changed. *)
Definition exec (o : op) (fault : option string) (s : store) (c : client)
    : store * client * response :=
  match fault with
  | Some msg => (s, c, failed msg)
  | None =>
      match o with
      | OQuery q => (s, c, run_query (conversations_tbl s) q)
      | OInsert new => let '(s', r) := insert_row s new in (s', c, r)
      | ORpc _ => (s, c, resolved)
      | OHook h => exec_hook h s c
      end
  end.

(** ** Asynchronous functions *)

(** An [async] function body: [Await] is a suspension point, [Update] and
    [Read] are the synchronous accesses to the client state in between. *)
Inductive prog (R : Type) : Type :=
| Ret (r : R)
| Await (o : op) (k : response -> prog R)
| Update (f : client -> client) (k : prog R)
| Read (k : client -> prog R).

Arguments Ret {R} r.
Arguments Await {R} o k.
Arguments Update {R} f k.
Arguments Read {R} k.

Fixpoint bind {A B : Type} (p : prog A) (f : A -> prog B) : prog B :=
  match p with
  | Ret r => f r
  | Await o k => Await o (fun x => bind (k x) f)
  | Update g k => Update g (bind k f)
  | Read k => Read (fun c => bind (k c) f)
  end.

Declare Scope prog_scope.
Delimit Scope prog_scope with prog.
Bind Scope prog_scope with prog.

Notation "'do' x <- p ; q" := (bind p (fun x => q))
  (at level 10, x name, p at level 100, q at level 200,
   format "'[v' 'do'  x  <-  p ; '/' q ']'") : prog_scope.
Notation "p >> q" := (bind p (fun _ => q))
  (at level 62, right associativity, only parsing) : prog_scope.

#[local] Open Scope prog_scope.

Definition await (o : op) : prog response := Await o Ret.
Definition setState (f : state -> state) : prog unit := Update (with_ui f) (Ret tt).
Definition getState : prog state := Read (fun c => Ret (ui c)).
Definition toast (title : string) : prog unit := Update (with_toast title) (Ret tt).
Definition now : prog Z := Read (fun c => Ret (clock c)).

(** The synchronous prefix of a call: run up to the first suspension point. *)
Fixpoint sync {R : Type} (p : prog R) (c : client)
    : client * (R + op * (response -> prog R)) :=
  match p with
  | Ret r => (c, inl r)
  | Await o k => (c, inr (o, k))
  | Update g k => sync k (g c)
  | Read k => sync (k c) c
  end.

(** One call run to completion with nothing interleaved; [faults] gives, for
    each request in turn, whether the backend fails it. *)
Fixpoint run {R : Type} (p : prog R) (faults : list (option string))
    (s : store) (c : client) : store * client * R :=
  match p with
  | Ret r => (s, c, r)
  | Await o k =>
      let '(s', c', resp) := exec o (default None (head faults)) s c in
      run (k resp) (tail faults) s' c'
  | Update g k => run k faults s (g c)
  | Read k => run (k c) faults s c
  end.

(** The outcome of a call that may throw. *)
Inductive outcome (A : Type) : Type :=
| Returned (a : A)
| Thrown (e : string).

Arguments Returned {A} a.
Arguments Thrown {A} e.

(** ** The conversations hook ([useConversations]) *)

(** [from('conversations').select('id').limit(1)] *)
Definition probe_query : query := Query (Some ["id"]) [] None (Some 1).

Module UseConversations.
Section Hook.
(** [useAuth().user], reduced to its id. *)
Variable user : option string.

Definition ensureTablesExist : prog unit :=
  do r <- await (OQuery probe_query);
  match error r with
  | Some msg =>
      if includes "does not exist" msg then
        do _ <- await (ORpc "create_conversations_table_if_not_exists");
        do _ <- await (ORpc "create_messages_table_if_not_exists");
        Ret tt
      else Ret tt
  | None => Ret tt
  end.

Definition list_query (uid : string) : query :=
  Query None [Contains "participants" [uid]] (Some "lastMessageAt") None.

Definition fetchConversations : prog unit :=
  match user with
  | None => Ret tt
  | Some uid =>
      setState (set_loading true) >>
      ensureTablesExist >>
      do r <- await (OQuery (list_query uid));
      match error r with
      | Some _ =>
          toast "Could not load conversations" >>
          setState (fun prev => set_conversations [] (set_loading false prev))
      | None =>
          setState (fun prev => set_loading false (set_conversations (default [] (data r)) prev))
      end
  end.

Definition existing_query (uid receiverId : string) (propertyId : option string) : query :=
  Query None
    [Contains "participants" [uid; receiverId]; Eq "propertyId" (str_or propertyId EmptyString)]
    None None.

Definition newConversation (uid receiverId : string) (t : Z)
    (subject propertyId : option string) : obj :=
  {[ "participants" := VStrs [uid; receiverId];
     "lastMessageAt" := VTime t;
     "subject" := VStr (str_or subject EmptyString);
     "propertyId" := str_or_null propertyId;
     "unreadCount" := VNum 0 ]}.

(** The [catch] block of [createConversation]. *)
Definition createConversation_failed : prog (option obj) :=
  toast "Error creating conversation" >>
  setState (set_loading false) >>
  Ret None.

(** An insert that answers without an error and without a row does not occur
    with the gateway; the source would then throw on [data[0]] (no data) and
    is taken to the [catch] block in both cases. *)
Definition createConversation (receiverId : string)
    (subject initialMessage propertyId : option string) : prog (option obj) :=
  match user with
  | None => Ret None
  | Some uid =>
      setState (set_loading true) >>
      do existing <- await (OQuery (existing_query uid receiverId propertyId));
      match data existing with
      | Some (conversation :: _) =>
          setState (fun prev => set_loading false (set_current (Some conversation) prev)) >>
          Ret (Some conversation)
      | _ =>
          ensureTablesExist >>
          do t <- now;
          do r <- await (OInsert (newConversation uid receiverId t subject propertyId));
          match error r, data r with
          | None, Some (conversation :: _) =>
              setState (fun prev =>
                set_loading false
                  (set_current (Some conversation)
                     (set_conversations (conversation :: conversations prev) prev))) >>
              Ret (Some conversation)
          | _, _ => createConversation_failed
          end
      end
  end.

Definition setCurrentConversation (conversation : option obj) : client -> client :=
  with_ui (set_current conversation).
End Hook.
End UseConversations.

(** ** The mapped fetch ([useFetchConversations]) *)

Module UseFetchConversations.
Section Hook.
Variable user : option string.

Definition list_query (uid : string) : query :=
  Query None [Contains "participants" [uid]] (Some "last_message_at") None.

(** Database column names to client-side property names. *)
Definition mapConversation (conv : obj) : obj :=
  {[ "id" := get conv "id";
     "participants" := get conv "participants";
     "lastMessageAt" := get conv "last_message_at";
     "subject" := js_or (get conv "subject") VUndefined;
     "propertyId" := js_or (get conv "property_id") VUndefined;
     "unreadCount" := js_or (get conv "unread_count") (VNum 0) ]}.

Definition fetchConversations : prog (option (list obj)) :=
  match user with
  | None => Ret None
  | Some uid =>
      setState (set_loading true) >>
      do r <- await (OQuery (list_query uid));
      match error r with
      | Some _ =>
          toast "Could not load conversations" >>
          setState (fun prev => set_conversations [] (set_loading false prev)) >>
          Ret None
      | None =>
          let mappedConversations :=
            match data r with Some d => mapConversation <$> d | None => [] end in
          setState (fun prev => set_loading false (set_conversations mappedConversations prev)) >>
          Ret (Some mappedConversations)
      end
  end.
End Hook.
End UseFetchConversations.

(** ** The event loop of one client *)

(** A synchronous handler is a sequence of state updates and of calls that
    are started and not awaited. *)
Inductive cmd :=
| Do (f : client -> client)
| Spawn (p : prog unit).

Module Sched.
Section Loop.
Context {R : Type}.

(** The store, the client, the calls suspended at a request (in flight)
    and the results of the calls that have returned. *)
Record sys := Sys {
  db : store;
  cl : client;
  tasks : list (op * (response -> prog R));
  returned : list R
}.

(** The requests that are in flight. *)
Definition pending (s : sys) : list op := fst <$> tasks s.

(** A call starts: its synchronous prefix runs at once, the rest waits
    for the answer to its first request. *)
Definition spawn (p : prog R) (s : sys) : sys :=
  match sync p (cl s) with
  | (c, inl r) => Sys (db s) c (tasks s) (returned s ++ [r])
  | (c, inr t) => Sys (db s) c (tasks s ++ [t]) (returned s)
  end.

(** The answer to the request of the [i]-th suspended call arrives: the
    request takes effect on the store and the call continues up to its
    next request. *)
Definition resume (i : nat) (fault : option string) (s : sys) : sys :=
  match tasks s !! i with
  | None => s
  | Some (o, k) =>
      let '(d, c, resp) := exec o fault (db s) (cl s) in
      match sync (k resp) c with
      | (c', inl r) => Sys d c' (delete i (tasks s)) (returned s ++ [r])
      | (c', inr t) => Sys d c' (<[i := t]> (tasks s)) (returned s)
      end
  end.
End Loop.

Arguments sys R : clear implicits.

Definition step (c : cmd) (s : sys unit) : sys unit :=
match c with
| Do f => Sys (db s) (f (cl s)) (tasks s) (returned s)
| Spawn p => spawn p s
end.

(** A synchronous handler runs to its end. *)
Definition handle (h : list cmd) (s : sys unit) : sys unit :=
foldl (fun s c => step c s) s h.
End Sched.

(** ** The facade ([useMessaging]) *)

Module UseMessaging.
Section Facade.
Variable user : option string.

Definition fetchConversations : prog unit := UseConversations.fetchConversations user.
Definition createConversation := UseConversations.createConversation user.

(** The callback of the subscription to changes of the conversations
    table; there is no subscription without a user. *)
Definition onConversationsChange : list cmd :=
  match user with
  | None => []
  | Some _ => [Spawn fetchConversations]
  end.

Definition fetchMessagesOrToast (cid : jsval) : prog unit :=
  do r <- await (OHook (FetchMessagesBase cid));
  match error r with
  | Some _ => toast "Error loading messages"
  | None => Ret tt
  end.

(** The effect that runs when the id of the current conversation changes. *)
Definition onCurrentConversationChange (c : client) : list cmd :=
  match currentConversation (ui c) with
  | Some conversation => [Spawn (fetchMessagesOrToast (get conversation "id"))]
  | None => []
  end.

Definition handleSelectConversation (conversation : obj) : list cmd :=
  [Do (UseConversations.setCurrentConversation (Some conversation));
   Spawn (fetchMessagesOrToast (get conversation "id"))] ++
  (if js_gt0 (get conversation "unreadCount")
   then [Spawn (do _ <- await (OHook (MarkMessagesAsRead (get conversation "id"))); Ret tt)]
   else []).

(** The [catch] block of [handleSendMessage]: toast and rethrow. *)
Definition sendMessage_failed (e : string) : prog (outcome bool) :=
  toast "Error sending message" >> Ret (Thrown e).

Definition handleSendMessage (conversationId content : string)
    (attachments : option (list string)) : prog (outcome bool) :=
  do sent <- await (OHook (SendMessageBase user (VStr conversationId) content attachments));
  match error sent with
  | Some e => sendMessage_failed e
  | None =>
      do fetched <- await (OHook (FetchMessagesBase (VStr conversationId)));
      match error fetched with
      | Some e => sendMessage_failed e
      | None => fetchConversations >> Ret (Returned true)
      end
  end.

Definition is_current (conversationId : string) (st : state) : bool :=
  match currentConversation st with
  | Some c => bool_decide (get c "id" = VStr conversationId)
  | None => false
  end.

Definition handleDeleteConversation (conversationId : string) : prog bool :=
  do st <- getState;
  (if is_current conversationId st
   then Update (UseConversations.setCurrentConversation None) (Ret tt)
   else Ret tt) >>
  do r <- await (OHook (DeleteConversation user (VStr conversationId)));
  match error r with
  | Some _ => toast "Error deleting conversation" >> Ret false
  | None => Ret true
  end.

Definition handleCreateConversation (receiverId : string)
    (subject initialMessage propertyId : option string) : prog (option obj) :=
  do created <- createConversation receiverId subject initialMessage propertyId;
  match created with
  | None => toast "Error creating conversation" >> Ret None
  | Some conversation =>
      match initialMessage with
      | Some text =>
          if String.eqb text EmptyString then Ret (Some conversation)
          else
            do sent <- await (OHook (SendMessageBase user (get conversation "id") text None));
            match error sent with
            | Some _ => Ret (Some conversation)
            | None => fetchConversations >> Ret (Some conversation)
            end
      | None => Ret (Some conversation)
      end
  end.
End Facade.
End UseMessaging.

(** ** The conversation view ([ConversationView]) *)

Module ConversationView.
Definition setIsSending (b : bool) : prog unit :=
  Update (with_view (fun v => View (selectedFiles v) b)) (Ret tt).
Definition setSelectedFiles (l : list string) : prog unit :=
  Update (with_view (fun v => View l (isSending v))) (Ret tt).

(** [onSendMessage] is the prop the page passes in. *)
Definition handleSendMessage {A : Type}
    (onSendMessage : string -> option (list string) -> prog (outcome A))
    (content : string) : prog unit :=
  Read (fun c =>
    let files := selectedFiles (vw c) in
    if blank content && bool_decide (files = []) then Ret tt
    else
      setIsSending true >>
      do r <- onSendMessage content (if bool_decide (files = []) then None else Some files);
      match r with
      | Returned _ => setSelectedFiles []
      | Thrown _ => Ret tt
      end >>
      setIsSending false).
End ConversationView.

(** ** Several clients on one store *)

Module Race.
Section Net.
Context {R : Type}.

(** A client and its one call: returned, or suspended at a request. *)
Record proc := Proc {
  p_client : client;
  p_call : R + op * (response -> prog R)
}.

Record net := Net {
  shared : store;
  procs : list proc
}.

Definition start (c : client) (p : prog R) : proc :=
  let '(c', t) := sync p c in Proc c' t.

(** The pending request of client [i] takes effect and its call continues
    to the next suspension point. *)
Definition step (i : nat) (n : net) : net :=
  match procs n !! i with
  | Some (Proc c (inr (o, k))) =>
      let '(d, c1, resp) := exec o None (shared n) c in
      let '(c2, t) := sync (k resp) c1 in
      Net d (<[i := Proc c2 t]> (procs n))
  | _ => n
  end.

Definition schedule (order : list nat) (n : net) : net :=
  foldl (fun n i => step i n) n order.

Definition results (n : net) : list (option R) :=
  (fun p => match p_call p with inl r => Some r | inr _ => None end) <$> procs n.
End Net.

Arguments net R : clear implicits.
Arguments proc R : clear implicits.
End Race.

(** ** Stores and clients used in the scenarios *)

(** The columns of the conversations table as [createConversation] writes
    them, and as the mapped fetch reads them. *)
Definition camel_columns : list string :=
  ["id"; "participants"; "lastMessageAt"; "subject"; "propertyId"; "unreadCount"].
Definition snake_columns : list string :=
  ["id"; "participants"; "last_message_at"; "subject"; "property_id"; "unread_count"].

Definition empty_store : store := Store (Table camel_columns []) [] 1.

(** A client that has just started, at time [t]. *)
Definition fresh_client (t : Z) : client :=
  Client (State false [] None) [] [] (View [] false) t.

(** A conversation row of the camelCase table. *)
Definition conv_row (id : string) (participants : list string) (lastMessageAt : Z)
    (subject propertyId unreadCount : jsval) : obj :=
  {[ "id" := VStr id; "participants" := VStrs participants;
     "lastMessageAt" := VTime lastMessageAt; "subject" := subject;
     "propertyId" := propertyId; "unreadCount" := unreadCount ]}.

(** ** The two list fetches side by side *)

(** The row of the snake_case table that holds what a camelCase row holds. *)
Definition to_snake (r : obj) : obj :=
  {[ "id" := get r "id"; "participants" := get r "participants";
     "last_message_at" := get r "lastMessageAt"; "subject" := get r "subject";
     "property_id" := get r "propertyId"; "unread_count" := get r "unreadCount" ]}.

(** A camelCase row reduced to the six client fields, with the defaults of
    the mapped fetch. *)
Definition normalize (r : obj) : obj :=
  {[ "id" := get r "id"; "participants" := get r "participants";
     "lastMessageAt" := get r "lastMessageAt";
     "subject" := js_or (get r "subject") VUndefined;
     "propertyId" := js_or (get r "propertyId") VUndefined;
     "unreadCount" := js_or (get r "unreadCount") (VNum 0) ]}.

(** The conversation list each implementation leaves in the hook state when
    the backend fails no request. *)
Definition fetched_raw (uid : string) (s : store) (c : client) : list obj :=
  conversations (ui (run (UseConversations.fetchConversations (Some uid)) [] s c).1.2).
Definition fetched_mapped (uid : string) (s : store) (c : client) : list obj :=
  conversations (ui (run (UseFetchConversations.fetchConversations (Some uid)) [] s c).1.2).

(** The claim that the two implementations are equivalent: on every store
    and for every user they leave the same conversations. *)
Definition fetch_equivalent : Prop :=
  forall uid s c, fetched_raw uid s c = fetched_mapped uid s c.

(** The unread count of a conversation object is a defined, non-negative
    integer. *)
Definition unread_defined (conv : obj) : Prop :=
  exists n : Z, get conv "unreadCount" = VNum n /\ (0 <= n)%Z.

(** A camelCase store whose only conversation has no unread count stored. *)
Definition store_null_unread : store :=
  Store (Table camel_columns [conv_row "c1" ["u1"; "u2"] 5 VNull VNull VNull]) [] 2.

(** A camelCase store with one complete conversation between u1 and u2. *)
Definition store_one : store :=
  Store (Table camel_columns
           [conv_row "c1" ["u1"; "u2"] 5 (VStr "Inquiry") (VStr "p1") (VNum 0)]) [] 2.

(** ** Scenarios for [createConversation] *)

(** The id of the conversation a call returned. *)
Definition returned_id (r : option obj) : option jsval := (fun c => get c "id") <$> r.

(** u1 starts a conversation with u2 about property [propertyId] twice in a
    row, at times 10 and 20, on the empty store. *)
Definition create_twice (propertyId : option string)
    : store * option obj * option obj :=
  let '(s1, c1, r1) :=
    run (UseConversations.createConversation (Some "u1") "u2" (Some "Inquiry") None propertyId)
        [] empty_store (fresh_client 10) in
  let '(s2, _, r2) :=
    run (UseConversations.createConversation (Some "u1") "u2" (Some "Inquiry") None propertyId)
        [] s1 (with_clock 20 c1) in
  (s2, r1, r2).

(** u1 and u2 start a conversation with each other about property p1 at the
    same time, each on a client of their own. *)
Definition race_start : Race.net (option obj) :=
  Race.Net empty_store
    [Race.start (fresh_client 10)
       (UseConversations.createConversation (Some "u1") "u2" None None (Some "p1"));
     Race.start (fresh_client 10)
       (UseConversations.createConversation (Some "u2") "u1" None None (Some "p1"))].

(** The conversations of the store between the two users about the property. *)
Definition conversations_of (a b : string) (propertyId : jsval) (s : store) : list obj :=
  filter (fun r => participant a r && participant b r &&
                   bool_decide (get r "propertyId" = propertyId))
         (rows (conversations_tbl s)).

(** The ids the calls of the clients have returned so far ([None]: the call
    is still in flight). *)
Definition race_ids (n : Race.net (option obj)) : list (option (option jsval)) :=
  (fun r : option (option obj) => option_map returned_id r) <$> Race.results n.

(** ** Scenario for [handleCreateConversation] *)

(** u1 starts a conversation with u2 about p1 with a first message; the
    check, the probe and the insert succeed, the send fails. *)
Definition start_faults : list (option string) :=
  [None; None; None; Some "StoreUnavailable"].

Definition started_conversation : obj :=
  conv_row "1" ["u1"; "u2"] 10 (VStr "Inquiry") (VStr "p1") (VNum 0).

(** ** Failing facade operations *)

(** The operations of the facade whose effect on the snapshot is decided by
    the sources: the two list fetches, delete and start. *)
Inductive facade_op :=
| OpFetch
| OpFetchMapped
| OpDelete (conversationId : string)
| OpCreate (receiverId : string) (subject initialMessage propertyId : option string).

(** One operation run for the signed-in user [uid]: the store and the client
    it leaves, and whether it failed (the fetch of the conversations hook
    returns nothing and reports a failure by its toast; the mapped fetch and
    start return null; delete returns false). *)
Definition run_op (uid : string) (o : facade_op) (faults : list (option string))
    (s : store) (c : client) : store * client * bool :=
  match o with
  | OpFetch =>
      let '(s', c', _) := run (UseMessaging.fetchConversations (Some uid)) faults s c in
      (s', c', bool_decide (toasts c' ≠ toasts c))
  | OpFetchMapped =>
      let '(s', c', r) := run (UseFetchConversations.fetchConversations (Some uid)) faults s c in
      (s', c', bool_decide (r = None))
  | OpDelete conversationId =>
      let '(s', c', r) :=
        run (UseMessaging.handleDeleteConversation (Some uid) conversationId) faults s c in
      (s', c', negb r)
  | OpCreate receiverId subject initialMessage propertyId =>
      let '(s', c', r) :=
        run (UseMessaging.handleCreateConversation (Some uid) receiverId subject
               initialMessage propertyId) faults s c in
      (s', c', bool_decide (r = None))
  end.

(** The claim that a failing operation leaves the snapshot as it was. *)
Definition failure_keeps_snapshot : Prop :=
  forall uid o faults s c,
    (run_op uid o faults s c).2 = true ->
    snapshot (run_op uid o faults s c).1.2 = snapshot c.

(** The snapshot a failing operation leaves. *)
Definition snapshot_after_failure (o : facade_op) (c : client)
    : list obj * option obj * list obj :=
  match o with
  | OpFetch | OpFetchMapped => ([], currentConversation (ui c), messages c)
  | OpDelete conversationId =>
      (conversations (ui c),
       if UseMessaging.is_current conversationId (ui c) then None
       else currentConversation (ui c),
       messages c)
  | OpCreate _ _ _ _ => snapshot c
  end.

(** u1 has the conversation c1 of [store_one] in the list and selected. *)
Definition client_selected : client :=
  Client (State false (rows (conversations_tbl store_one))
            (head (rows (conversations_tbl store_one))))
         [] [] (View [] false) 0.

(** ** Opening a conversation *)

(** The stored unread count of a conversation. *)
Definition unread_of (cid : jsval) (s : store) : option jsval :=
  (fun r => get r "unreadCount") <$> find (has_id cid) (rows (conversations_tbl s)).

(** An event loop that has nothing in flight. *)
Definition idle {R : Type} (s : store) (c : client) : Sched.sys R := Sched.Sys s c [] [].

(** The claim that markRead waits for the message fetch: markRead is not in
    flight when [handleSelectConversation] returns, the fetch being
    unanswered, nor after the fetch has failed. *)
Definition markRead_waits_for_fetch : Prop :=
  forall (conv : obj) (s : store) (c : client) (e : string),
    let opened := Sched.handle (UseMessaging.handleSelectConversation conv) (idle s c) in
    let failed := Sched.resume 0 (Some e) opened in
    OHook (MarkMessagesAsRead (get conv "id")) ∉ Sched.pending opened ++ Sched.pending failed.

(** A camelCase store whose conversation c1 has two unread messages. *)
Definition unread_conversation : obj :=
  conv_row "c1" ["u1"; "u2"] 5 (VStr "Inquiry") (VStr "p1") (VNum 2).
Definition store_unread : store := Store (Table camel_columns [unread_conversation]) [] 2.

(** ** Change notifications *)

(** What the event loop of the reconciler sees: a change notification, or
    the answer to the request of the [i]-th call in flight. *)
Inductive event :=
| Notify
| Answer (i : nat) (fault : option string).

Definition react (user : option string) (s : Sched.sys unit) (e : event) : Sched.sys unit :=
  match e with
  | Notify => Sched.handle (UseMessaging.onConversationsChange user) s
  | Answer i fault => Sched.resume i fault s
  end.

Definition is_list_query (o : op) : bool :=
  match o with
  | OQuery q => bool_decide (q_order_desc q = Some "lastMessageAt")
  | _ => false
  end.

(** The number of list queries in flight. *)
Definition list_queries_in_flight (s : Sched.sys unit) : nat :=
  length (filter (fun o => is_list_query o) (Sched.pending s)).

(** The claim that re-fetches are coalesced: whatever notifications and
    answers arrive, at most one list query is in flight. *)
Definition refetch_coalesced : Prop :=
  forall (uid : string) (evs : list event) (s : store) (c : client),
    list_queries_in_flight (foldl (react (Some uid)) (idle s c) evs) <= 1.

(** ** Sends *)

Definition is_send_to (cid : string) (o : op) : bool :=
  match o with
  | OHook (SendMessageBase _ c _ _) => bool_decide (c = VStr cid)
  | _ => false
  end.

(** The number of sends into conversation [cid] in flight. *)
Definition sends_in_flight {R : Type} (cid : string) (s : Sched.sys R) : nat :=
  length (filter (fun o => is_send_to cid o) (Sched.pending s)).

(** The claim that the facade serializes the sends of one client into one
    conversation: whatever calls of [handleSendMessage] are made, at most one
    send into the conversation is in flight. *)
Definition sends_serialized : Prop :=
  forall (user : option string) (cid : string) (contents : list string)
         (s : store) (c : client),
    sends_in_flight cid
      (foldl (fun sys content =>
                Sched.spawn (UseMessaging.handleSendMessage user cid content None) sys)
             (idle s c) contents) <= 1.

(** [k] calls of [handleSendMessage] into conversation [cid], one per
    content, none of them answered yet. *)
Definition send_all (user : option string) (cid : string) (contents : list string)
    (sys : Sched.sys (outcome bool)) : Sched.sys (outcome bool) :=
  foldl (fun sys content =>
           Sched.spawn (UseMessaging.handleSendMessage user cid content None) sys)
        sys contents.

(** The view's [handleSendMessage] with the facade's [sendMessage] for the
    conversation [cid] as its [onSendMessage]. *)
Definition view_send (user : option string) (cid content : string) : prog unit :=
  ConversationView.handleSendMessage
    (fun text files => UseMessaging.handleSendMessage user cid text files) content.

(** The attachments the view passes on. *)
Definition view_files (c : client) : option (list string) :=
  if bool_decide (selectedFiles (vw c) = []) then None else Some (selectedFiles (vw c)).

(** A [fetchConversations] call of the conversations hook as it waits in
    flight: first for the answer to the probe of [ensureTablesExist], then
    for the answer to the list query. *)
Definition no_task : op * (response -> prog unit) := (ORpc EmptyString, fun _ => Ret tt).

Definition fetch_at_probe (uid : string) : op * (response -> prog unit) :=
  match sync (UseConversations.fetchConversations (Some uid)) (fresh_client 0) with
  | (_, inr t) => t
  | _ => no_task
  end.

Definition fetch_at_list (uid : string) : op * (response -> prog unit) :=
  match sync ((fetch_at_probe uid).2 resolved) (fresh_client 0) with
  | (_, inr t) => t
  | _ => no_task
  end.

(** [n] notifications, then the answers to the probes of the [n] calls. *)
Definition notified (uid : string) (n : nat) (sys : Sched.sys unit) : Sched.sys unit :=
  Nat.iter n (fun s => react (Some uid) s Notify) sys.

Definition probes_answered (uid : string) (n : nat) (sys : Sched.sys unit) : Sched.sys unit :=
  foldl (fun s i => react (Some uid) s (Answer i None)) sys (seq 0 n).


(** ** The requests of a call *)

(** The requests a call issues, in order, when it is run to completion. *)
Fixpoint requests {R : Type} (p : prog R) (faults : list (option string))
    (s : store) (c : client) : list op :=
  match p with
  | Ret _ => []
  | Await o k =>
      let '(s', c', resp) := exec o (default None (head faults)) s c in
      o :: requests (k resp) (tail faults) s' c'
  | Update g k => requests k faults s (g c)
  | Read k => requests (k c) faults s c
  end.

(** ** The conversation view: selected files and header *)

Module ViewState.
(** [l.filter((_, i) => keep(i))], the positions counted from [i]. *)
Fixpoint filter_index {A : Type} (keep : nat -> bool) (i : nat) (l : list A) : list A :=
  match l with
  | [] => []
  | x :: l' => if keep i then x :: filter_index keep (S i) l' else filter_index keep (S i) l'
  end.

(** [e.target.files] is null ([None]) or the chosen files. *)
Definition handleFileChange (files : option (list string)) (v : view) : view :=
  match files with
  | Some l => View l (isSending v)
  | None => v
  end.

Definition handleRemoveFile (index : nat) (v : view) : view :=
  View (filter_index (fun i => negb (i =? index)) 0 (selectedFiles v)) (isSending v).

(** [s.split('@')[0]]: the part of [s] before its first at sign. *)
Definition at_sign : Ascii.ascii := Ascii.ascii_of_nat 64.

Fixpoint before_at (s : string) : string :=
  match s with
  | EmptyString => EmptyString
  | String a rest => if Ascii.eqb a at_sign then EmptyString else String a (before_at rest)
  end.

(** [s || d] *)
Definition or_default (s d : string) : string :=
  if String.eqb s EmptyString then d else s.

(** [participants.find(p => p !== participants[0]) || ""] *)
Definition otherParticipant (participants : list string) : string :=
  match participants with
  | [] => EmptyString
  | first :: _ =>
      match List.find (fun p => negb (String.eqb p first)) participants with
      | Some p => p
      | None => EmptyString
      end
  end.

(** [participants[0] || ""] *)
Definition seller (participants : list string) : string :=
  match participants with
  | [] => EmptyString
  | first :: _ => first
  end.

Definition buyerName (participants : list string) : string :=
  or_default (before_at (otherParticipant participants)) "Buyer".

Definition sellerName (participants : list string) : string :=
  or_default (before_at (seller participants)) "Seller".
End ViewState.


(** Whether a string holds an at sign. *)
Fixpoint contains_at (s : string) : bool :=
  match s with
  | EmptyString => false
  | String a rest => Ascii.eqb a ViewState.at_sign || contains_at rest
  end.


(** A client-side field that is neither null nor the empty string. *)
Definition no_null_no_empty (v : jsval) : Prop := v <> VNull /\ v <> VStr EmptyString.

(** A mapped conversation whose optional fields are normalised. *)
Definition normalised (m : obj) : Prop :=
  no_null_no_empty (get m "subject") /\
  no_null_no_empty (get m "propertyId") /\
  no_null_no_empty (get m "unreadCount") /\
  get m "unreadCount" <> VUndefined.


(** ** Selecting a conversation, with the effect that follows *)

(** [currentConversation?.id], the dependency of the message effect. *)
Definition current_id (c : client) : jsval :=
  match currentConversation (ui c) with
  | Some conversation => get conversation "id"
  | None => VUndefined
  end.

(** After a handler has run the hook renders again, and the message effect
    runs when its dependency is not what it was at the render [before]. *)
Definition render_after (before : client) (sys : Sched.sys unit) : Sched.sys unit :=
  if decide (current_id (Sched.cl sys) = current_id before) then sys
  else Sched.handle (UseMessaging.onCurrentConversationChange (Sched.cl sys)) sys.

(** The user selects a conversation. *)
Definition select (conversation : obj) (sys : Sched.sys unit) : Sched.sys unit :=
  render_after (Sched.cl sys)
    (Sched.handle (UseMessaging.handleSelectConversation conversation) sys).

(** * Properties *)

(** ** Ordering of the store *)

Section Ordering.
Variable col : string.

Lemma key_ge_total a b : key_ge a b = true \/ key_ge b a = true.
Proof. destruct a, b; simpl; auto; lia. Qed.

Lemma key_ge_trans a b c : key_ge a b = true -> key_ge b c = true -> key_ge a c = true.
Proof. destruct a, b, c; simpl; auto; try discriminate; lia. Qed.

Lemma insert_desc_Forall (P : obj -> Prop) x l :
  P x -> Forall P l -> Forall P (insert_desc col x l).
Proof.
  intros Hx Hl. induction Hl as [|y l Hy Hl IH]; simpl.
  - by constructor.
  - destruct (row_ge col x y); repeat constructor; auto.
Qed.

Lemma insert_desc_sorted x l :
  StronglySorted (fun a b => row_ge col a b = true) l ->
  StronglySorted (fun a b => row_ge col a b = true) (insert_desc col x l).
Proof.
  induction 1 as [|y l Hl IH Hy]; simpl.
  - repeat constructor.
  - destruct (row_ge col x y) eqn:Hxy.
    + constructor; [by constructor|].
      constructor; [done|].
      eapply Forall_impl; [exact Hy|].
      intros z Hz. unfold row_ge in *. by eapply key_ge_trans.
    + constructor; [done|].
      apply insert_desc_Forall; [|done].
      unfold row_ge in *.
      destruct (key_ge_total (sort_key (get x col)) (sort_key (get y col))); congruence.
Qed.

Lemma order_desc_sorted l :
  StronglySorted (fun a b => row_ge col a b = true) (order_desc col l).
Proof.
  induction l as [|x l IH]; simpl; [constructor|]. by apply insert_desc_sorted.
Qed.

Lemma insert_desc_perm x l : insert_desc col x l ≡ₚ x :: l.
Proof.
  induction l as [|y l IH]; simpl; [done|].
  destruct (row_ge col x y); [done|]. rewrite IH. apply Permutation_swap.
Qed.

Lemma order_desc_perm l : order_desc col l ≡ₚ l.
Proof.
  induction l as [|x l IH]; simpl; [done|]. by rewrite insert_desc_perm, IH.
Qed.
End Ordering.

(** Sorting commutes with a map that carries the key of one column to the
    key of another. *)
Lemma order_desc_fmap (f : obj -> obj) (c1 c2 : string) (l : list obj) :
  (forall r, sort_key (get (f r) c2) = sort_key (get r c1)) ->
  order_desc c2 (f <$> l) = f <$> order_desc c1 l.
Proof.
  intros Hf.
  assert (Hins : forall x l', insert_desc c2 (f x) (f <$> l') = f <$> insert_desc c1 x l').
  { intros x l'. induction l' as [|y l' IH]; simpl; [done|].
    unfold row_ge. rewrite !Hf. destruct (key_ge _ _); [done|].
    simpl. f_equal. exact IH. }
  induction l as [|x l IH]; [done|].
  change (insert_desc c2 (f x) (order_desc c2 (f <$> l)) = f <$> insert_desc c1 x (order_desc c1 l)).
  by rewrite IH, Hins.
Qed.

(** A list is descending in a field when each element is at least every
    element after it. *)
Definition descending (field : string) (l : list obj) : Prop :=
  forall i j a b, i < j -> l !! i = Some a -> l !! j = Some b ->
    key_ge (sort_key (get a field)) (sort_key (get b field)) = true.

Lemma key_ge_time (x y : Z) :
  key_ge (sort_key (VTime x)) (sort_key (VTime y)) = true <-> (y <= x)%Z.
Proof. simpl. lia. Qed.

Lemma sorted_descending field l :
  StronglySorted (fun a b => row_ge field a b = true) l -> descending field l.
Proof.
  induction 1 as [|x l Hl IH Hx]; intros i j a b Hij Ha Hb.
  - by rewrite lookup_nil in Ha.
  - destruct j as [|j]; [lia|]. simpl in Hb.
    destruct i as [|i]; simpl in Ha.
    + injection Ha as <-. rewrite Forall_forall in Hx.
      apply Hx. by eapply list_elem_of_lookup_2.
    + eapply IH; [|done..]. lia.
Qed.

Lemma descending_nil field : descending field [].
Proof. intros i j a b _ Ha. by rewrite lookup_nil in Ha. Qed.

(** The answer to a list query is in the order asked for. *)
Lemma run_query_descending t fs col l :
  data (run_query t (Query None fs (Some col) None)) = Some l ->
  StronglySorted (fun a b => row_ge col a b = true) l.
Proof.
  unfold run_query. destruct (unknown_column _ _); simpl; [done|].
  intros [= <-]. rewrite list_fmap_id. apply order_desc_sorted.
Qed.

(** ** Running the hooks *)

(** Queries and remote procedure calls leave the store and the client as
    they are. *)
Lemma exec_query q fault s c :
  exec (OQuery q) fault s c =
  (s, c, match fault with Some m => failed m | None => run_query (conversations_tbl s) q end).
Proof. by destruct fault. Qed.

Lemma exec_rpc fn fault s c :
  exec (ORpc fn) fault s c =
  (s, c, match fault with Some m => failed m | None => resolved end).
Proof. by destruct fault. Qed.

(** The faults that a call leaves for the calls after it. *)
Fixpoint leftover {R : Type} (p : prog R) (faults : list (option string))
    (s : store) (c : client) : list (option string) :=
  match p with
  | Ret _ => faults
  | Await o k =>
      let '(s', c', resp) := exec o (default None (head faults)) s c in
      leftover (k resp) (tail faults) s' c'
  | Update g k => leftover k faults s (g c)
  | Read k => leftover (k c) faults s c
  end.

Lemma run_bind {A B : Type} (p : prog A) (f : A -> prog B) faults s c :
  run (bind p f) faults s c =
  run (f (run p faults s c).2) (leftover p faults s c)
      (run p faults s c).1.1 (run p faults s c).1.2.
Proof.
  revert faults s c.
  induction p as [r|o k IH|g k IH|k IH]; intros faults s c; cbn [bind run leftover];
    [done| |by rewrite IH|by rewrite IH].
  destruct (exec o _ s c) as [[s' c'] resp]. by rewrite IH.
Qed.

Lemma run_setState f faults s c : run (setState f) faults s c = (s, with_ui f c, tt).
Proof. done. Qed.

Lemma run_toast t faults s c : run (toast t) faults s c = (s, with_toast t c, tt).
Proof. done. Qed.

Lemma run_await o faults s c :
  run (await o) faults s c = exec o (default None (head faults)) s c.
Proof. unfold await. cbn [run]. by destruct (exec _ _ _ _) as [[? ?] ?]. Qed.

(** [ensureTablesExist] issues one to three requests and changes nothing. *)
Lemma run_ensureTablesExist faults s c :
  run UseConversations.ensureTablesExist faults s c = (s, c, tt).
Proof.
  unfold UseConversations.ensureTablesExist, await. cbn [bind run].
  rewrite exec_query.
  destruct (error _) as [msg|]; [|done].
  destruct (includes _ _); [|done].
  cbn [bind run]. by rewrite !exec_rpc.
Qed.

Lemma leftover_nil {R : Type} (p : prog R) s c : leftover p [] s c = [].
Proof.
  revert s c. induction p as [r|o k IH|g k IH|k IH]; intros s c; cbn [leftover]; auto.
  destruct (exec o _ s c) as [[s' c'] resp]. apply IH.
Qed.

(** What [fetchConversations] of the conversations hook leaves behind: the
    store as it was, the current conversation as it was, and either the
    answer of the list query or, when the request fails, the empty list. *)
Lemma run_fetchConversations uid faults s c :
  exists (fault : option string),
    (faults = [] -> fault = None) /\
    let resp :=
      match fault with
      | Some m => failed m
      | None => run_query (conversations_tbl s) (UseConversations.list_query uid)
      end in
    run (UseConversations.fetchConversations (Some uid)) faults s c =
    (s,
     match error resp with
     | Some _ =>
         with_ui (fun prev => set_conversations [] (set_loading false prev))
           (with_toast "Could not load conversations" (with_ui (set_loading true) c))
     | None =>
         with_ui (fun prev => set_loading false (set_conversations (default [] (data resp)) prev))
           (with_ui (set_loading true) c)
     end,
     tt).
Proof.
  unfold UseConversations.fetchConversations.
  rewrite run_bind, run_setState. cbn [fst snd].
  rewrite run_bind, run_ensureTablesExist. cbn [fst snd].
  rewrite run_bind, run_await, exec_query. cbn [fst snd].
  match goal with
  | |- context [match default None ?h with Some _ => _ | None => _ end] =>
      exists (default None h)
  end.
  split.
  - intros ->. cbn [leftover setState]. by rewrite leftover_nil.
  - cbn zeta. by destruct (error _).
Qed.

Lemma run_query_list t fs col :
  unknown_column t (Query None fs (Some col) None) = None ->
  run_query t (Query None fs (Some col) None) =
  ok_rows (order_desc col (filter (fun r => matches_all fs r) (rows t))).
Proof.
  unfold run_query. intros ->.
  cbn [q_order_desc q_limit q_select q_filters from_option project].
  by rewrite list_fmap_id.
Qed.

(** The fields of a mapped conversation. *)
Lemma mapConversation_fields conv :
  let m := UseFetchConversations.mapConversation conv in
  get m "id" = get conv "id" /\
  get m "participants" = get conv "participants" /\
  get m "lastMessageAt" = get conv "last_message_at" /\
  get m "subject" = js_or (get conv "subject") VUndefined /\
  get m "propertyId" = js_or (get conv "property_id") VUndefined /\
  get m "unreadCount" = js_or (get conv "unread_count") (VNum 0).
Proof.
  unfold UseFetchConversations.mapConversation, get at 1 3 5 7 9 11.
  repeat split; by simplify_map_eq.
Qed.

(** What the mapped [fetchConversations] leaves behind and returns. *)
Lemma run_fetchConversations_mapped uid faults s c :
  let resp :=
    match default None (head faults) with
    | Some m => failed m
    | None => run_query (conversations_tbl s) (UseFetchConversations.list_query uid)
    end in
  run (UseFetchConversations.fetchConversations (Some uid)) faults s c =
  match error resp with
  | Some _ =>
      (s,
       with_ui (fun prev => set_conversations [] (set_loading false prev))
         (with_toast "Could not load conversations" (with_ui (set_loading true) c)),
       None)
  | None =>
      let mapped :=
        match data resp with
        | Some d => UseFetchConversations.mapConversation <$> d
        | None => []
        end in
      (s,
       with_ui (fun prev => set_loading false (set_conversations mapped prev))
         (with_ui (set_loading true) c),
       Some mapped)
  end.
Proof.
  intros resp. unfold UseFetchConversations.fetchConversations.
  rewrite run_bind, run_setState. cbn [fst snd leftover setState].
  rewrite run_bind, run_await, exec_query. cbn [fst snd].
  fold resp. by destruct (error resp).
Qed.

Lemma sorted_fmap (f : obj -> obj) (c1 c2 : string) (l : list obj) :
  (forall r, sort_key (get (f r) c2) = sort_key (get r c1)) ->
  StronglySorted (fun a b => row_ge c1 a b = true) l ->
  StronglySorted (fun a b => row_ge c2 a b = true) (f <$> l).
Proof.
  intros Hf. induction 1 as [|x l Hl IH Hx]; simpl; constructor; [done|].
  apply Forall_fmap. eapply Forall_impl; [exact Hx|].
  intros y Hy. unfold row_ge in *. simpl. by rewrite !Hf.
Qed.

(** ** C8: the conversation list is descending by [lastMessageAt] *)

(** C8.  For every user and every store, whichever requests the backend
    fails, the conversations that [fetchConversations] hands over (the list it
    writes into the hook state, in both implementations, and the list the
    mapped implementation returns) are ordered descending by [lastMessageAt]:
    the [lastMessageAt] of each one is at least that of every one after it, in
    the order of the store (for two instants [key_ge_time]: the later or equal
    one first). *)
Theorem fetchConversations_descending (uid : string) (faults : list (option string))
    (s : store) (c : client) :
  descending "lastMessageAt"
    (conversations (ui (run (UseConversations.fetchConversations (Some uid)) faults s c).1.2)) /\
  descending "lastMessageAt"
    (conversations (ui (run (UseFetchConversations.fetchConversations (Some uid)) faults s c).1.2)) /\
  from_option (descending "lastMessageAt") True
    (run (UseFetchConversations.fetchConversations (Some uid)) faults s c).2.
Proof.
  split.
  - destruct (run_fetchConversations uid faults s c) as (fault & _ & ->).
    cbn [fst snd]. destruct fault as [m|]; cbn; [apply descending_nil|].
    destruct (error _); cbn; [apply descending_nil|].
    destruct (data _) as [l|] eqn:Hd; cbn; [|apply descending_nil].
    apply sorted_descending. by eapply run_query_descending.
  - rewrite run_fetchConversations_mapped.
    set (resp := match default None (head faults) with Some m => failed m | None => _ end).
    assert (Hm : descending "lastMessageAt"
                   match data resp with
                   | Some d => UseFetchConversations.mapConversation <$> d
                   | None => []
                   end).
    { destruct (data resp) as [d|] eqn:Hd; [|apply descending_nil].
      apply sorted_descending.
      apply (sorted_fmap _ "last_message_at").
      { intros r. by destruct (mapConversation_fields r) as (_ & _ & -> & _). }
      subst resp. destruct (default None (head faults)); [done|].
      by eapply run_query_descending. }
    destruct (error resp); cbn; [split; [apply descending_nil|done]|by split].
Qed.

(** ** C9: the unread count the client sees *)

(** The mapped fetch turns a missing or null stored count into 0. *)
Lemma mapConversation_unread_default (conv : obj) :
  get conv "unread_count" = VNull \/ get conv "unread_count" = VUndefined ->
  get (UseFetchConversations.mapConversation conv) "unreadCount" = VNum 0.
Proof.
  intros H. destruct (mapConversation_fields conv) as (_ & _ & _ & _ & _ & ->).
  by destruct H as [-> | ->].
Qed.

(** The mapped fetch passes a stored number other than 0 through as it is. *)
Lemma mapConversation_unread_number (conv : obj) (n : Z) :
  get conv "unread_count" = VNum n -> n <> 0%Z ->
  get (UseFetchConversations.mapConversation conv) "unreadCount" = VNum n.
Proof.
  intros H Hn. destruct (mapConversation_fields conv) as (_ & _ & _ & _ & _ & ->).
  rewrite H. unfold js_or. cbn. by destruct (Z.eqb_spec n 0).
Qed.

(** C9.  The fetch of the conversations hook stores the rows as they come:
    on a store whose conversation has a null [unreadCount], the snapshot
    after the fetch holds that conversation with [unreadCount] null, not 0,
    so the unread count is not a defined non-negative integer. *)
Theorem fetchConversations_exposes_null_unread :
  (fun r => get r "unreadCount") <$> fetched_raw "u1" store_null_unread (fresh_client 0)
    = [VNull] /\
  ~ Forall unread_defined (fetched_raw "u1" store_null_unread (fresh_client 0)).
Proof.
  assert (H : (fun r => get r "unreadCount") <$>
                fetched_raw "u1" store_null_unread (fresh_client 0) = [VNull])
    by (vm_compute; reflexivity).
  split; [exact H|].
  intros Hall.
  destruct (fetched_raw "u1" store_null_unread (fresh_client 0)) as [|r l]; [done|].
  apply Forall_cons_1 in Hall as [(n & Hn & _) _].
  simpl in H. congruence.
Qed.

(** ** C10: the two list fetches *)

Lemma filter_fmap_matches (fs : list filter_spec) (f : obj -> obj) (l : list obj) :
  (forall r, matches_all fs (f r) = matches_all fs r) ->
  filter (fun r => matches_all fs r) (f <$> l) = f <$> filter (fun r => matches_all fs r) l.
Proof.
  intros Hf. induction l as [|x l IH]; [done|].
  rewrite fmap_cons, !filter_cons, Hf, IH. by destruct (decide _).
Qed.

Lemma to_snake_fields r :
  get (to_snake r) "id" = get r "id" /\
  get (to_snake r) "participants" = get r "participants" /\
  get (to_snake r) "last_message_at" = get r "lastMessageAt" /\
  get (to_snake r) "subject" = get r "subject" /\
  get (to_snake r) "property_id" = get r "propertyId" /\
  get (to_snake r) "unread_count" = get r "unreadCount".
Proof.
  unfold to_snake, get at 1 3 5 7 9 11.
  repeat split; by simplify_map_eq.
Qed.

Lemma mapConversation_to_snake r :
  UseFetchConversations.mapConversation (to_snake r) = normalize r.
Proof.
  destruct (to_snake_fields r) as (H1 & H2 & H3 & H4 & H5 & H6).
  unfold UseFetchConversations.mapConversation, normalize.
  by rewrite H1, H2, H3, H4, H5, H6.
Qed.

(** C10, counterexample.  On the camelCase store with one conversation of
    u1 the fetch of the conversations hook leaves that conversation and the
    mapped fetch, whose query names a column the table does not have, leaves
    the empty list. *)
Lemma fetch_not_equivalent : ~ fetch_equivalent.
Proof.
  intros H. specialize (H "u1" store_one (fresh_client 0)).
  apply (f_equal length) in H. vm_compute in H. discriminate.
Qed.

(** C10, amended.  The two fetches correspond across the renaming of the
    columns: on the snake_case table that holds the rows of a camelCase
    table, the mapped fetch leaves, in the same order, the conversations the
    fetch of the conversations hook leaves on the camelCase table, each
    reduced to the six client fields with a falsy subject or propertyId
    replaced by undefined and a falsy unread count by 0. *)
Theorem fetch_mapped_refines_raw (uid : string) (rws msgs : list obj) (nid : N)
    (c : client) :
  fetched_mapped uid (Store (Table snake_columns (to_snake <$> rws)) msgs nid) c =
  normalize <$> fetched_raw uid (Store (Table camel_columns rws) msgs nid) c.
Proof.
  unfold fetched_mapped, fetched_raw.
  rewrite run_fetchConversations_mapped.
  destruct (run_fetchConversations uid [] (Store (Table camel_columns rws) msgs nid) c)
    as (fault & Hfault & ->).
  rewrite (Hfault eq_refl).
  cbn [head default fst snd conversations_tbl].
  unfold UseConversations.list_query, UseFetchConversations.list_query.
  rewrite !run_query_list by reflexivity.
  cbn [rows ok_rows error data default ui with_ui conversations set_loading set_conversations].
  rewrite filter_fmap_matches.
  - rewrite (order_desc_fmap to_snake "lastMessageAt").
    + rewrite <- list_fmap_compose.
      apply list_fmap_ext. intros i x _. apply mapConversation_to_snake.
    + intros r. by destruct (to_snake_fields r) as (_ & _ & -> & _).
  - intros r. cbn. by destruct (to_snake_fields r) as (_ & -> & _).
Qed.

(** ** C2: sequential [createConversation] *)

(** With a property id the second call finds the conversation of the first:
    one row, the same id. *)
Example create_twice_with_property :
  let '(s, r1, r2) := create_twice (Some "p1") in
  length (conversations_of "u1" "u2" (VStr "p1") s) = 1 /\
  returned_id r1 = Some (VStr "1") /\ returned_id r2 = Some (VStr "1").
Proof. vm_compute. done. Qed.

(** C2.  Without a property id the existence check asks for the property id
    [''] while the row is stored with the property id null, so the second of
    two sequential calls does not find the conversation of the first: the
    store ends with two conversations for the same pair and the calls return
    different ids. *)
Theorem createConversation_null_property_duplicates :
  let '(s, r1, r2) := create_twice None in
  length (conversations_of "u1" "u2" VNull s) = 2 /\
  returned_id r1 = Some (VStr "1") /\ returned_id r2 = Some (VStr "2").
Proof. vm_compute. done. Qed.

(** ** C1: concurrent [createConversation] *)

(** One call after the other: one conversation, the same id for both. *)
Example race_sequential :
  let n := Race.schedule [0; 0; 0; 1] race_start in
  length (conversations_of "u1" "u2" (VStr "p1") (Race.shared n)) = 1 /\
  race_ids n = [Some (Some (VStr "1")); Some (Some (VStr "1"))].
Proof. vm_compute. done. Qed.

(** C1.  When both existence checks reach the store before either insert,
    both calls insert: the store ends with two conversations for the same
    pair and property, and the two calls return different ids. *)
Theorem createConversation_race_duplicates :
  let n := Race.schedule [0; 1; 0; 1; 0; 1] race_start in
  length (conversations_of "u1" "u2" (VStr "p1") (Race.shared n)) = 2 /\
  race_ids n = [Some (Some (VStr "1")); Some (Some (VStr "2"))].
Proof. vm_compute. done. Qed.

(** ** C7: a failed initial message keeps the conversation *)

Lemma run_now faults s c : run now faults s c = (s, c, clock c).
Proof. done. Qed.

(** A star query without a limit answers with rows of the table. *)
Lemma run_query_rows t fs o l r :
  data (run_query t (Query None fs o None)) = Some l -> r ∈ l -> r ∈ rows t.
Proof.
  unfold run_query. destruct (unknown_column _ _); [done|].
  cbn [q_order_desc q_limit q_select q_filters from_option project data ok_rows].
  intros [= <-]. rewrite list_fmap_id.
  destruct o as [col|]; cbn [from_option].
  - rewrite order_desc_perm. rewrite list_elem_of_filter. tauto.
  - rewrite list_elem_of_filter. tauto.
Qed.

(** The conversation that [createConversation] returns is a row of the
    store it leaves. *)
Lemma createConversation_persisted user receiver subject msg pid faults s c conv :
  (run (UseConversations.createConversation user receiver subject msg pid) faults s c).2
    = Some conv ->
  conv ∈ rows (conversations_tbl
                 (run (UseConversations.createConversation user receiver subject msg pid)
                      faults s c).1.1).
Proof.
  unfold UseConversations.createConversation. destruct user as [uid|]; [|done].
  rewrite run_bind, run_setState. cbn [fst snd].
  rewrite run_bind, run_await, exec_query. cbn [fst snd].
  set (existing := match default None _ with Some m => failed m | None => _ end).
  assert (Hex : forall l r, data existing = Some l -> r ∈ l -> r ∈ rows (conversations_tbl s)).
  { subst existing. destruct (default None _); [done|]. apply run_query_rows. }
  clearbody existing.
  assert (Hnew : forall F,
    let out := run
      (UseConversations.ensureTablesExist >>
       do t <- now;
       do r <- await (OInsert (UseConversations.newConversation uid receiver t subject pid));
       match error r, data r with
       | None, Some (conversation :: _) =>
           setState (fun prev =>
             set_loading false
               (set_current (Some conversation)
                  (set_conversations (conversation :: conversations prev) prev))) >>
           Ret (Some conversation)
       | _, _ => UseConversations.createConversation_failed
       end) F s (with_ui (set_loading true) c) in
    out.2 = Some conv -> conv ∈ rows (conversations_tbl out.1.1)).
  { intros F. rewrite run_bind, run_ensureTablesExist. cbn [fst snd].
    rewrite run_bind, run_now. cbn [fst snd].
    rewrite run_bind, run_await. unfold exec.
    destruct (default None _); [by cbn|].
    unfold insert_row. destruct (head _); [by cbn|].
    cbn. intros [= <-]. apply elem_of_app. right. by apply list_elem_of_singleton. }
  destruct (data existing) as [[|found l]|] eqn:Hd; [apply Hnew| |apply Hnew].
  cbn. intros [= <-]. eapply Hex; [done|]. apply list_elem_of_here.
Qed.

(** A send that is answered with an error has changed neither the store nor
    the client. *)
Lemma exec_send_failed fault sender cid content att s c :
  is_Some (error (exec (OHook (SendMessageBase sender cid content att)) fault s c).2) ->
  (exec (OHook (SendMessageBase sender cid content att)) fault s c).1 = (s, c).
Proof.
  unfold exec. destruct fault; [done|].
  cbn [exec_hook]. unfold sendMessageBase.
  destruct sender; [|done].
  destruct (_ && _); [done|].
  destruct (find _ _); [|done].
  destruct (negb _); [done|].
  cbn. by intros [? [=]].
Qed.

(** C7.  [handleCreateConversation] is called with a non-empty initial
    message, [createConversation] returns the conversation [conv], and the
    request that sends the initial message is answered with an error.  Then
    the call still returns [conv], the store is the one [createConversation]
    left, and [conv] is a row of it. *)
Theorem handleCreateConversation_keeps_conversation
    (user : option string) (receiverId : string) (subject propertyId : option string)
    (text : string) (faults : list (option string)) (s : store) (c : client) (conv : obj) :
  let create :=
    UseConversations.createConversation user receiverId subject (Some text) propertyId in
  let created := run create faults s c in
  text <> EmptyString ->
  created.2 = Some conv ->
  is_Some (error (exec (OHook (SendMessageBase user (get conv "id") text None))
                       (default None (head (leftover create faults s c)))
                       created.1.1 created.1.2).2) ->
  let out :=
    run (UseMessaging.handleCreateConversation user receiverId subject (Some text) propertyId)
        faults s c in
  out.2 = Some conv /\ out.1.1 = created.1.1 /\ conv ∈ rows (conversations_tbl out.1.1).
Proof.
  intros create created Htext Hcreated Hfail.
  pose proof (createConversation_persisted user receiverId subject (Some text) propertyId
                faults s c conv Hcreated) as Hrow.
  fold create in Hrow. fold created in Hrow.
  unfold UseMessaging.handleCreateConversation, UseMessaging.createConversation.
  fold create. rewrite run_bind. fold created. rewrite Hcreated.
  assert (String.eqb text EmptyString = false) as -> by by apply String.eqb_neq.
  rewrite run_bind, run_await.
  pose proof (exec_send_failed _ _ _ _ _ _ _ Hfail) as Hsame.
  destruct Hfail as [e He].
  destruct (exec _ _ _ _) as [[s' c'] resp]. cbn [fst snd] in *.
  injection Hsame as -> ->. rewrite He. cbn. done.
Qed.

(** C7, witness: u1 starts a conversation with u2 about p1; the send of the
    first message fails. *)
Lemma handleCreateConversation_keeps_conversation_witness :
  let out :=
    run (UseMessaging.handleCreateConversation (Some "u1") "u2" (Some "Inquiry")
           (Some "Is this available?") (Some "p1"))
        start_faults empty_store (fresh_client 10) in
  out.2 = Some started_conversation /\
  out.1.1 =
    (run (UseConversations.createConversation (Some "u1") "u2" (Some "Inquiry")
            (Some "Is this available?") (Some "p1"))
         start_faults empty_store (fresh_client 10)).1.1 /\
  started_conversation ∈ rows (conversations_tbl out.1.1).
Proof.
  apply (handleCreateConversation_keeps_conversation (Some "u1") "u2" (Some "Inquiry")
           (Some "p1") "Is this available?" start_faults empty_store (fresh_client 10)
           started_conversation).
  - discriminate.
  - vm_compute. reflexivity.
  - vm_compute. eexists. reflexivity.
Defined.

(** ** C3: what a failing operation leaves *)

(** C3, counterexample.  u1 has the conversation c1 selected and deletes it;
    the delete request fails.  The call returns false and the selection is
    gone.  Likewise a fetch whose list query fails empties the list. *)
Lemma failure_changes_snapshot : ~ failure_keeps_snapshot.
Proof.
  intros H.
  specialize (H "u1" (OpDelete "c1") [Some "StoreUnavailable"] store_one client_selected).
  assert (Hfailed : (run_op "u1" (OpDelete "c1") [Some "StoreUnavailable"]
                       store_one client_selected).2 = true) by (vm_compute; reflexivity).
  specialize (H Hfailed).
  apply (f_equal (fun sn => sn.1.2)) in H. vm_compute in H. discriminate.
Qed.

Example failed_fetch_empties_list :
  let out := run_op "u1" OpFetch [None; Some "StoreUnavailable"] store_one client_selected in
  out.2 = true /\ length (conversations (ui client_selected)) = 1 /\
  conversations (ui out.1.2) = [].
Proof. vm_compute. done. Qed.

(** One statement of an [async] body. *)
Ltac run_step :=
  rewrite run_bind,
    ?run_setState, ?run_toast, ?run_now, ?run_ensureTablesExist, ?run_await, ?exec_query;
  cbn [fst snd].

(** A [createConversation] that returns null has left the store and the
    snapshot as they were. *)
Lemma createConversation_null user receiver subject msg pid faults s c :
  let out :=
    run (UseConversations.createConversation user receiver subject msg pid) faults s c in
  out.2 = None -> out.1.1 = s /\ snapshot out.1.2 = snapshot c.
Proof.
  unfold UseConversations.createConversation. destruct user as [uid|]; [|done].
  do 2 run_step.
  generalize (leftover (await (OQuery (UseConversations.existing_query uid receiver pid)))
                (leftover (setState (set_loading true)) faults s c) s
                (with_ui (set_loading true) c)).
  intros F.
  assert (Hnew :
    let out := run
      (UseConversations.ensureTablesExist >>
       do t <- now;
       do r <- await (OInsert (UseConversations.newConversation uid receiver t subject pid));
       match error r, data r with
       | None, Some (conversation :: _) =>
           setState (fun prev =>
             set_loading false
               (set_current (Some conversation)
                  (set_conversations (conversation :: conversations prev) prev))) >>
           Ret (Some conversation)
       | _, _ => UseConversations.createConversation_failed
       end) F s (with_ui (set_loading true) c) in
    out.2 = None -> out.1.1 = s /\ snapshot out.1.2 = snapshot c).
  { do 3 run_step. unfold exec.
    destruct (default None _); [by cbn|].
    unfold insert_row. destruct (head _); [by cbn|]. by cbn. }
  destruct (data _) as [[|found l]|]; [apply Hnew|by cbn|apply Hnew].
Qed.

(** [handleCreateConversation] returns null only when [createConversation]
    does. *)
Lemma handleCreateConversation_null user receiver subject msg pid faults s c :
  let out :=
    run (UseMessaging.handleCreateConversation user receiver subject msg pid) faults s c in
  out.2 = None -> snapshot out.1.2 = snapshot c.
Proof.
  unfold UseMessaging.handleCreateConversation, UseMessaging.createConversation.
  rewrite run_bind.
  pose proof (createConversation_null user receiver subject msg pid faults s c) as Hnull.
  cbn zeta in Hnull.
  destruct (run (UseConversations.createConversation user receiver subject msg pid) faults s c)
    as [[s1 c1] [conv|]]; cbn [fst snd] in *.
  - destruct msg as [text|]; [|by cbn].
    destruct (String.eqb text EmptyString); [by cbn|].
    run_step. destruct (error _); [by cbn|].
    rewrite run_bind. by cbn.
  - intros _. destruct (Hnull eq_refl) as [_ <-]. by cbn.
Qed.

(** C3, amended.  A start that fails leaves the conversation list, the
    current conversation and the message list as they were.  A fetch of the
    conversation list that fails (either implementation) leaves the current
    conversation and the message list as they were and the conversation list
    empty.  A delete that fails leaves the conversation list and the message
    list as they were, and the current conversation as it was unless it is the
    conversation being deleted, which is deselected. *)
Theorem failure_snapshot (uid : string) (o : facade_op) (faults : list (option string))
    (s : store) (c : client) :
  (run_op uid o faults s c).2 = true ->
  snapshot (run_op uid o faults s c).1.2 = snapshot_after_failure o c.
Proof.
  destruct o as [| |conversationId|receiverId subject initialMessage propertyId];
    unfold run_op, snapshot_after_failure.
  - unfold UseMessaging.fetchConversations.
    destruct (run_fetchConversations uid faults s c) as (fault & _ & ->).
    cbn [fst snd]. destruct (error _); cbn; [done|].
    rewrite bool_decide_eq_true. naive_solver.
  - rewrite run_fetchConversations_mapped. cbn zeta.
    destruct (error _); by cbn.
  - unfold UseMessaging.handleDeleteConversation, getState.
    cbn [bind run]. unfold UseConversations.setCurrentConversation.
    destruct (UseMessaging.is_current conversationId (ui c)) eqn:Hcur;
      cbn [bind run await]; unfold exec;
      (destruct (default None _);
       [cbn; by rewrite ?Hcur
       |cbn [exec_hook]; destruct (deleteConversation _ _ _) as [s' r];
        destruct (error r); cbn; by rewrite ?Hcur]).
  - pose proof (handleCreateConversation_null (Some uid) receiverId subject initialMessage
                  propertyId faults s c) as Hnull.
    cbn zeta in Hnull.
    destruct (run _ faults s c) as [[s1 c1] r]. cbn [fst snd] in *.
    rewrite bool_decide_eq_true. exact Hnull.
Qed.

(** C3, witness: the failed delete of the selected conversation. *)
Lemma failure_snapshot_witness :
  snapshot (run_op "u1" (OpDelete "c1") [Some "StoreUnavailable"] store_one client_selected).1.2
  = snapshot_after_failure (OpDelete "c1") client_selected.
Proof. apply failure_snapshot. vm_compute. reflexivity. Defined.

(** ** C4: opening a conversation *)

(** C4, counterexample.  u2 opens the conversation c1, which has two unread
    messages: markRead is in flight as soon as the handler returns, next to
    the message fetch, and stays in flight when that fetch fails. *)
Lemma markRead_does_not_wait : ~ markRead_waits_for_fetch.
Proof.
  intros H.
  specialize (H unread_conversation store_unread (fresh_client 9) "StoreUnavailable").
  apply H. vm_compute. apply list_elem_of_further, list_elem_of_here.
Qed.

(** With the fetch failed and the markRead answered, the stored unread count
    has gone from 2 to 0. *)
Example open_with_failed_fetch :
  let opened :=
    Sched.handle (UseMessaging.handleSelectConversation unread_conversation)
      (idle store_unread (fresh_client 9)) in
  let after := Sched.resume 0 None (Sched.resume 0 (Some "StoreUnavailable") opened) in
  Sched.pending opened =
    [OHook (FetchMessagesBase (VStr "c1")); OHook (MarkMessagesAsRead (VStr "c1"))] /\
  toasts (Sched.cl after) = ["Error loading messages"] /\
  messages (Sched.cl after) = [] /\
  unread_of (VStr "c1") store_unread = Some (VNum 2) /\
  unread_of (VStr "c1") (Sched.db after) = Some (VNum 0).
Proof. vm_compute. done. Qed.

(** C4, amended.  [handleSelectConversation] makes the conversation the
    current one, starts the message fetch and, when the unread count is
    greater than 0, starts markRead in the same turn, after the fetch has
    been started and before it is answered: both requests are in flight when
    the handler returns, whatever the fetch will answer. *)
Theorem handleSelectConversation_starts_both (conv : obj) (sys : Sched.sys unit) :
  let opened := Sched.handle (UseMessaging.handleSelectConversation conv) sys in
  currentConversation (ui (Sched.cl opened)) = Some conv /\
  Sched.db opened = Sched.db sys /\
  Sched.pending opened =
    Sched.pending sys ++
    OHook (FetchMessagesBase (get conv "id")) ::
    (if js_gt0 (get conv "unreadCount")
     then [OHook (MarkMessagesAsRead (get conv "id"))] else []).
Proof.
  unfold UseMessaging.handleSelectConversation, Sched.handle, Sched.pending.
  destruct (js_gt0 _); cbn; rewrite ?fmap_app, <- ?app_assoc; done.
Qed.

(** ** C5: change notifications and re-fetches *)

(** C5, counterexample.  Two notifications arrive one after the other and
    the probes of the two calls are answered: two list queries for the
    conversations of u1 are in flight. *)
Lemma refetch_not_coalesced : ~ refetch_coalesced.
Proof.
  intros H.
  specialize (H "u1" [Notify; Notify; Answer 0 None; Answer 1 None]
                store_one (fresh_client 0)).
  vm_compute in H. lia.
Qed.

Lemma notify_pending uid (sys : Sched.sys unit) :
  Sched.pending (react (Some uid) sys Notify) = Sched.pending sys ++ [OQuery probe_query].
Proof. unfold Sched.pending. cbn. by rewrite fmap_app. Qed.

(** C5, amended.  Every change notification starts a [fetchConversations]
    call of its own, whatever is in flight: [n] notifications add [n] calls
    in flight, each suspended at the first request of the fetch. *)
Theorem notifications_not_coalesced (uid : string) (n : nat) (sys : Sched.sys unit) :
  Sched.pending (Nat.iter n (fun s => react (Some uid) s Notify) sys) =
  Sched.pending sys ++ replicate n (OQuery probe_query).
Proof.
  induction n as [|n IH].
  - cbn. by rewrite app_nil_r.
  - rewrite Nat.iter_succ. cbv beta.
    rewrite notify_pending, IH, <- app_assoc. f_equal.
    change ([OQuery probe_query]) with (replicate 1 (OQuery probe_query)).
    rewrite <- replicate_add. by rewrite Nat.add_comm.
Qed.

(** ** C6: sends of one client into one conversation *)

(** C6, counterexample.  Two calls of [handleSendMessage] into c1, the
    second made while the first is in flight: two sends are in flight. *)
Lemma sends_not_serialized : ~ sends_serialized.
Proof.
  intros H.
  specialize (H (Some "u1") "c1" ["first"; "second"] store_one (fresh_client 0)).
  vm_compute in H. lia.
Qed.

Lemma send_pending user cid content att (sys : Sched.sys (outcome bool)) :
  Sched.pending (Sched.spawn (UseMessaging.handleSendMessage user cid content att) sys) =
  Sched.pending sys ++ [OHook (SendMessageBase user (VStr cid) content att)].
Proof. unfold Sched.pending. cbn. by rewrite fmap_app. Qed.

Lemma send_all_pending user cid contents (sys : Sched.sys (outcome bool)) :
  Sched.pending (send_all user cid contents sys) =
  Sched.pending sys ++
  ((fun content => OHook (SendMessageBase user (VStr cid) content None)) <$> contents).
Proof.
  revert sys. induction contents as [|content contents IH]; intros sys.
  - cbn. by rewrite app_nil_r.
  - change (send_all user cid (content :: contents) sys) with
      (send_all user cid contents
         (Sched.spawn (UseMessaging.handleSendMessage user cid content None) sys)).
    rewrite IH, send_pending, <- app_assoc. done.
Qed.

(** C6, amended.  The facade does not serialize sends: every call of
    [handleSendMessage] starts its send at once, so calls made before any
    answer are all in flight, in the order of the calls.  The view's
    [handleSendMessage] starts the facade's send for any content that is not
    blank or any selected file, whatever [isSending] is, and sets [isSending]
    for the duration of the call. *)
Theorem sends_all_in_flight (user : option string) (cid : string) (contents : list string)
    (content : string) (sys : Sched.sys (outcome bool)) (vsys : Sched.sys unit) :
  sends_in_flight cid (send_all user cid contents sys) =
    sends_in_flight cid sys + length contents /\
  let sent := Sched.spawn (view_send user cid content) vsys in
  if blank content && bool_decide (selectedFiles (vw (Sched.cl vsys)) = [])
  then sent = Sched.Sys (Sched.db vsys) (Sched.cl vsys) (Sched.tasks vsys)
                (Sched.returned vsys ++ [tt])
  else
    Sched.pending sent =
      Sched.pending vsys ++
      [OHook (SendMessageBase user (VStr cid) content (view_files (Sched.cl vsys)))] /\
    isSending (vw (Sched.cl sent)) = true.
Proof.
  split.
  - unfold sends_in_flight. rewrite send_all_pending, filter_app, length_app. f_equal.
    induction contents as [|x l IH]; [done|].
    rewrite fmap_cons, filter_cons_True; [by cbn [length]; rewrite IH|].
    cbn. by rewrite bool_decide_eq_true_2.
  - unfold view_send, ConversationView.handleSendMessage, Sched.spawn, view_files.
    cbn [sync]. destruct (blank content && _) eqn:Hb; [done|].
    unfold Sched.pending. cbn. by rewrite fmap_app.
Qed.

(** ** More on [createConversation] *)

(** When the existence check finds a conversation, the first one found is
    returned and made current; nothing is inserted. *)
Lemma createConversation_returns_existing uid receiver subject msg pid faults s c conv rest :
  head faults = None \/ head faults = Some None ->
  data (run_query (conversations_tbl s) (UseConversations.existing_query uid receiver pid))
    = Some (conv :: rest) ->
  run (UseConversations.createConversation (Some uid) receiver subject msg pid) faults s c =
  (s,
   with_ui (fun prev => set_loading false (set_current (Some conv) prev))
     (with_ui (set_loading true) c),
   Some conv).
Proof.
  intros Hok Hfound. unfold UseConversations.createConversation.
  do 2 run_step. cbn [leftover setState].
  assert (default None (head faults) = None) as -> by (by destruct Hok as [-> | ->]).
  by rewrite Hfound.
Qed.

Lemma filter_none {A : Type} (P : A -> Prop) `{!forall x, Decision (P x)} (l : list A) :
  Forall (fun x => ~ P x) l -> filter P l = [].
Proof.
  induction 1 as [|x l Hx Hl IH]; [done|]. by rewrite filter_cons_False.
Qed.

(** The keys of a new conversation. *)
Lemma newConversation_keys uid receiver t subject pid k :
  k ∈ (map_to_list (UseConversations.newConversation uid receiver t subject pid)).*1 ->
  k ∈ ["participants"; "lastMessageAt"; "subject"; "propertyId"; "unreadCount"].
Proof.
  intros [[k' v] [-> Hkv]]%list_elem_of_fmap.
  apply elem_of_map_to_list in Hkv. cbn [fst].
  unfold UseConversations.newConversation in Hkv.
  repeat (apply lookup_insert_Some in Hkv as [[<- _] | [_ Hkv]]; [set_solver|]).
  apply lookup_singleton_Some in Hkv as [<- _]. set_solver.
Qed.

(** When the existence check finds nothing and the table has the columns
    the hook writes, a new conversation is persisted and returned: it has no
    unread messages and its last-message time is the time of the call. *)
Lemma createConversation_inserts uid receiver subject msg pid s c :
  data (run_query (conversations_tbl s) (UseConversations.existing_query uid receiver pid))
    = Some [] ->
  ["participants"; "lastMessageAt"; "subject"; "propertyId"; "unreadCount"]
    ⊆ columns (conversations_tbl s) ->
  let out :=
    run (UseConversations.createConversation (Some uid) receiver subject msg pid) [] s c in
  exists conv,
    out.2 = Some conv /\
    rows (conversations_tbl out.1.1) = rows (conversations_tbl s) ++ [conv] /\
    get conv "unreadCount" = VNum 0 /\
    get conv "lastMessageAt" = VTime (clock c) /\
    get conv "participants" = VStrs [uid; receiver] /\
    get conv "propertyId" = str_or_null pid /\
    get conv "id" = fresh_id s.
Proof.
  intros Hnone Hcols. unfold UseConversations.createConversation.
  do 2 run_step. rewrite !leftover_nil. cbn [default head]. rewrite Hnone.
  do 3 run_step. unfold exec. rewrite !leftover_nil. cbn [default head].
  unfold insert_row.
  set (new := UseConversations.newConversation uid receiver _ subject pid).
  assert (filter (fun k => k ∉ columns (conversations_tbl s)) (map_to_list new).*1 = [])
    as ->.
  { apply filter_none, Forall_forall. intros k Hk Hnot. apply Hnot, Hcols.
    by eapply newConversation_keys. }
  cbn. eexists. split; [done|]. split; [done|].
  unfold get, new, UseConversations.newConversation.
  repeat split; by simplify_map_eq.
Qed.

Lemma run_query_plain t fs :
  run_query t (Query None fs None None) =
  match unknown_column t (Query None fs None None) with
  | Some col => failed (missing_column col)
  | None => ok_rows (filter (fun r => matches_all fs r) (rows t))
  end.
Proof.
  unfold run_query. destruct (unknown_column _ _); [done|].
  cbn [q_order_desc q_limit q_select q_filters from_option project].
  by rewrite list_fmap_id.
Qed.

(** With a property id, a second call finds the conversation the first call
    has inserted: it returns the same conversation and inserts nothing. *)
Lemma createConversation_twice uid receiver subject msg (p : string) s c c' :
  p <> EmptyString ->
  data (run_query (conversations_tbl s)
          (UseConversations.existing_query uid receiver (Some p))) = Some [] ->
  ["participants"; "lastMessageAt"; "subject"; "propertyId"; "unreadCount"]
    ⊆ columns (conversations_tbl s) ->
  let first :=
    run (UseConversations.createConversation (Some uid) receiver subject msg (Some p)) [] s c in
  let second :=
    run (UseConversations.createConversation (Some uid) receiver subject msg (Some p)) []
        first.1.1 c' in
  is_Some first.2 /\ second.2 = first.2 /\ second.1.1 = first.1.1.
Proof.
  intros Hp Hnone Hcols first second.
  destruct (createConversation_inserts uid receiver subject msg (Some p) s c Hnone Hcols)
    as (conv & Hret & Hrows & _ & _ & Hpart & Hprop & _).
  fold first in Hret, Hrows.
  assert (Hcolumns : columns (conversations_tbl first.1.1) = columns (conversations_tbl s)).
  { subst first. unfold UseConversations.createConversation.
    do 2 run_step. rewrite !leftover_nil. cbn [default head]. rewrite Hnone.
    do 3 run_step. unfold exec, insert_row. rewrite !leftover_nil. cbn [default head].
    destruct (head _); [done|]. by destruct (error _), (data _) as [[|??]|]. }
  assert (Hfound :
    data (run_query (conversations_tbl first.1.1)
            (UseConversations.existing_query uid receiver (Some p))) = Some [conv]).
  { unfold UseConversations.existing_query in *.
    assert (Hmatch : matches_all
              [Contains "participants" [uid; receiver]; Eq "propertyId" (str_or (Some p) EmptyString)]
              conv = true).
    { unfold matches_all, matches. cbn [forallb]. rewrite Hpart, Hprop.
      cbn. apply String.eqb_neq in Hp. rewrite Hp. cbn.
      rewrite !bool_decide_eq_true_2 by set_solver. cbn. by rewrite String.eqb_refl. }
    remember [Contains "participants" [uid; receiver]; Eq "propertyId" (str_or (Some p) EmptyString)]
      as fs eqn:Hfs. clear Hfs.
    rewrite run_query_plain in *.
    unfold unknown_column in *. rewrite Hcolumns.
    destruct (head _); [done|]. unfold ok_rows, data in *.
    injection Hnone as Hnone. rewrite Hrows, filter_app, Hnone. cbn [app].
    rewrite filter_cons_True, filter_nil; [done|]. by rewrite Hmatch. }
  subst second.
  rewrite (createConversation_returns_existing uid receiver subject msg (Some p) []
             first.1.1 c' conv [] (or_introl eq_refl) Hfound).
  cbn [fst snd]. rewrite Hret. eauto.
Qed.

(** A conversation stored with a null property id matches no existence
    check, in particular not the one for the property id [''] that a call
    without a property id makes. *)
Lemma existing_query_misses_null uid receiver (pid : option string) (r : obj) :
  get r "propertyId" = VNull ->
  matches_all (q_filters (UseConversations.existing_query uid receiver pid)) r = false.
Proof.
  intros Hnull. unfold UseConversations.existing_query, matches_all, matches.
  cbn [q_filters forallb]. rewrite Hnull. cbn. by rewrite andb_false_r.
Qed.

(** An insert that the store rejects (as a uniqueness constraint would
    reject the second insert of a race) makes the call return null: the
    conversation that exists is not read again. *)
Example create_insert_rejected :
  let out :=
    run (UseConversations.createConversation (Some "u2") "u1" None None (Some "p1"))
        [None; None; Some "duplicate key value violates unique constraint"]
        empty_store (fresh_client 10) in
  out.2 = None /\ toasts out.1.2 = ["Error creating conversation"].
Proof. vm_compute. done. Qed.

(** Three conversations of u1 come back newest first. *)
Example fetch_orders_by_time :
  let s := Store (Table camel_columns
                    [conv_row "a" ["u1"; "u2"] 5 VNull VNull (VNum 0);
                     conv_row "b" ["u1"; "u3"] 9 VNull VNull (VNum 0);
                     conv_row "c" ["u4"; "u2"] 8 VNull VNull (VNum 0);
                     conv_row "d" ["u4"; "u1"] 7 VNull VNull (VNum 0)]) [] 9 in
  (fun r => get r "id") <$> fetched_raw "u1" s (fresh_client 0)
  = [VStr "b"; VStr "d"; VStr "a"].
Proof. vm_compute. done. Qed.

(** Two notifications in a row, both probes answered: the two list queries
    are in flight together. *)
Example two_notifications :
  Sched.pending
    (foldl (react (Some "u1")) (idle store_one (fresh_client 0))
       [Notify; Notify; Answer 0 None; Answer 1 None])
  = [OQuery (UseConversations.list_query "u1"); OQuery (UseConversations.list_query "u1")].
Proof. vm_compute. done. Qed.

(** On a snake_case table the roles are exchanged: the mapped fetch leaves
    the conversation and the fetch of the conversations hook leaves nothing. *)
Example fetch_on_snake_table :
  let s := Store (Table snake_columns (to_snake <$> rows (conversations_tbl store_one))) [] 2 in
  length (fetched_raw "u1" s (fresh_client 0)) = 0 /\
  length (fetched_mapped "u1" s (fresh_client 0)) = 1.
Proof. vm_compute. done. Qed.

(** ** More on notifications: every call issues its own list query *)

Lemma notify_tasks uid (sys : Sched.sys unit) :
  react (Some uid) sys Notify =
  Sched.Sys (Sched.db sys) (with_ui (set_loading true) (Sched.cl sys))
    (Sched.tasks sys ++ [fetch_at_probe uid]) (Sched.returned sys).
Proof. reflexivity. Qed.

Lemma notified_tasks uid n (sys : Sched.sys unit) :
  Sched.tasks (notified uid n sys) = Sched.tasks sys ++ replicate n (fetch_at_probe uid) /\
  Sched.db (notified uid n sys) = Sched.db sys.
Proof.
  unfold notified. induction n as [|n [IHt IHd]].
  - cbn. by rewrite app_nil_r.
  - rewrite Nat.iter_succ. cbv beta. rewrite notify_tasks. cbn [Sched.tasks Sched.db].
    rewrite IHt, IHd, <- app_assoc. split; [|done]. f_equal.
    change [fetch_at_probe uid] with (replicate 1 (fetch_at_probe uid)).
    rewrite <- replicate_add. by rewrite Nat.add_comm.
Qed.

(** The probe of a call is answered without an error: the call issues the
    list query and waits for it. *)
Lemma answer_probe uid i (sys : Sched.sys unit) :
  Sched.tasks sys !! i = Some (fetch_at_probe uid) ->
  error (run_query (conversations_tbl (Sched.db sys)) probe_query) = None ->
  react (Some uid) sys (Answer i None) =
  Sched.Sys (Sched.db sys) (Sched.cl sys) (<[i := fetch_at_list uid]> (Sched.tasks sys))
    (Sched.returned sys).
Proof.
  intros Hi Hok. unfold react, Sched.resume. rewrite Hi.
  unfold fetch_at_probe. cbn [sync UseConversations.fetchConversations bind setState
    UseConversations.ensureTablesExist await]. rewrite exec_query. cbn [sync bind].
  rewrite Hok. reflexivity.
Qed.

Lemma probes_answered_tasks uid n j (s : store) (c : client) (done : list unit) :
  error (run_query (conversations_tbl s) probe_query) = None ->
  j <= n ->
  probes_answered uid j
    (Sched.Sys s c (replicate n (fetch_at_probe uid)) done) =
  Sched.Sys s c (replicate j (fetch_at_list uid) ++ replicate (n - j) (fetch_at_probe uid)) done.
Proof.
  intros Hok. unfold probes_answered. induction j as [|j IH]; intros Hj.
  - cbn. by rewrite Nat.sub_0_r.
  - rewrite seq_S, foldl_app, IH by lia. cbn [foldl Nat.add].
    rewrite answer_probe; cbn [Sched.db Sched.cl Sched.tasks Sched.returned]; [|..|done].
    + f_equal. rewrite insert_app_r_alt by (rewrite length_replicate; lia).
      rewrite length_replicate, Nat.sub_diag.
      destruct (n - j) as [|m] eqn:Hm; [lia|].
      replace (n - S j) with m by lia. cbn [replicate].
      change (<[0:=fetch_at_list uid]> (fetch_at_probe uid :: replicate m (fetch_at_probe uid)))
        with (fetch_at_list uid :: replicate m (fetch_at_probe uid)).
      rewrite cons_middle, app_assoc. f_equal.
      change [fetch_at_list uid] with (replicate 1 (fetch_at_list uid)).
      rewrite <- replicate_add. by rewrite Nat.add_comm.
    + rewrite lookup_app_r by (rewrite length_replicate; lia).
      rewrite length_replicate, Nat.sub_diag.
      destruct (n - j) as [|m] eqn:Hm; [lia|]. done.
Qed.

(** After [n] notifications on an idle client and the answers to the [n]
    probes, [n] list queries for the conversations of the user are in flight
    together. *)
Lemma list_queries_after_notifications uid n (s : store) (c : client) :
  error (run_query (conversations_tbl s) probe_query) = None ->
  Sched.pending (probes_answered uid n (notified uid n (idle s c))) =
  replicate n (OQuery (UseConversations.list_query uid)).
Proof.
  intros Hok.
  destruct (notified_tasks uid n (idle s c)) as [Ht Hd].
  destruct (notified uid n (idle s c)) as [d c' tasks done].
  cbn [Sched.tasks Sched.db idle app] in Ht, Hd. subst d tasks.
  rewrite (probes_answered_tasks uid n n) by (done || lia).
  unfold Sched.pending. cbn [Sched.tasks].
  rewrite Nat.sub_diag, app_nil_r, fmap_replicate. done.
Qed.

(** * Further properties of the hooks *)

(** ** Tools *)

Lemma requests_bind {A B : Type} (p : prog A) (f : A -> prog B) faults s c :
  requests (bind p f) faults s c =
  requests p faults s c ++
  requests (f (run p faults s c).2) (leftover p faults s c)
           (run p faults s c).1.1 (run p faults s c).1.2.
Proof.
  revert faults s c.
  induction p as [r|o k IH|g k IH|k IH]; intros faults s c;
    cbn [bind run leftover requests]; [done| |by rewrite IH|by rewrite IH].
  destruct (exec o _ s c) as [[s' c'] resp]. by rewrite IH.
Qed.

Lemma requests_ensureTablesExist faults s c :
  requests UseConversations.ensureTablesExist faults s c =
  OQuery probe_query ::
  match default None (head faults) with
  | Some msg =>
      if includes "does not exist" msg
      then [ORpc "create_conversations_table_if_not_exists";
            ORpc "create_messages_table_if_not_exists"]
      else []
  | None =>
      match error (run_query (conversations_tbl s) probe_query) with
      | Some msg =>
          if includes "does not exist" msg
          then [ORpc "create_conversations_table_if_not_exists";
                ORpc "create_messages_table_if_not_exists"]
          else []
      | None => []
      end
  end.
Proof.
  unfold UseConversations.ensureTablesExist, await. cbn [bind requests].
  rewrite exec_query. f_equal.
  destruct (default None (head faults)) as [msg|]; cbn [error failed].
  - destruct (includes _ msg); [|done]. cbn [bind requests]. by rewrite !exec_rpc.
  - destruct (error _) as [msg|]; [|done].
    destruct (includes _ msg); [|done]. cbn [bind requests]. by rewrite !exec_rpc.
Qed.

(** A hook request never changes the conversations hook's state, the toasts
    or the view; only the message fetch changes the message list. *)
Lemma exec_client o fault s c :
  let c' := (exec o fault s c).1.2 in
  ui c' = ui c /\ toasts c' = toasts c /\ vw c' = vw c /\ clock c' = clock c.
Proof.
  unfold exec. destruct fault; [done|].
  destruct o as [q|new|fn|h]; cbn; [done| |done|].
  - by destruct (insert_row s new).
  - destruct h; cbn; [|done|done|].
    + by destruct (sendMessageBase _ _ _ _ _ _).
    + by destruct (deleteConversation _ _ _).
Qed.

(** The three ways a [createConversation] of a signed-in user ends: an
    existing conversation is found, a new one is inserted, or the call fails. *)
Lemma run_createConversation uid receiver subject msg pid faults s c :
  let out :=
    run (UseConversations.createConversation (Some uid) receiver subject msg pid) faults s c in
  let c0 := with_ui (set_loading true) c in
  (exists conv,
     conv ∈ rows (conversations_tbl s) /\
     out = (s, with_ui (fun prev => set_loading false (set_current (Some conv) prev)) c0,
            Some conv)) \/
  (exists conv,
     get conv "id" = fresh_id s /\
     out = (Store (Table (columns (conversations_tbl s))
                     (rows (conversations_tbl s) ++ [conv]))
                  (messages_tbl s) (N.succ (next_id s)),
            with_ui (fun prev =>
                       set_loading false
                         (set_current (Some conv)
                            (set_conversations (conv :: conversations prev) prev))) c0,
            Some conv)) \/
  out = (s, with_ui (set_loading false) (with_toast "Error creating conversation" c0), None).
Proof.
  unfold UseConversations.createConversation.
  do 2 run_step.
  set (existing := match default None _ with Some m => failed m | None => _ end).
  assert (Hex : forall l r, data existing = Some l -> r ∈ l -> r ∈ rows (conversations_tbl s)).
  { subst existing. destruct (default None _); [done|]. apply run_query_rows. }
  clearbody existing.
  generalize (leftover (await (OQuery (UseConversations.existing_query uid receiver pid)))
                (leftover (setState (set_loading true)) faults s c) s
                (with_ui (set_loading true) c)).
  intros F.
  assert (Hnew :
    let out := run
      (UseConversations.ensureTablesExist >>
       do t <- now;
       do r <- await (OInsert (UseConversations.newConversation uid receiver t subject pid));
       match error r, data r with
       | None, Some (conversation :: _) =>
           setState (fun prev =>
             set_loading false
               (set_current (Some conversation)
                  (set_conversations (conversation :: conversations prev) prev))) >>
           Ret (Some conversation)
       | _, _ => UseConversations.createConversation_failed
       end) F s (with_ui (set_loading true) c) in
    (exists conv,
       get conv "id" = fresh_id s /\
       out = (Store (Table (columns (conversations_tbl s))
                       (rows (conversations_tbl s) ++ [conv]))
                    (messages_tbl s) (N.succ (next_id s)),
              with_ui (fun prev =>
                         set_loading false
                           (set_current (Some conv)
                              (set_conversations (conv :: conversations prev) prev)))
                (with_ui (set_loading true) c),
              Some conv)) \/
    out = (s, with_ui (set_loading false)
                (with_toast "Error creating conversation" (with_ui (set_loading true) c)),
           None)).
  { do 3 run_step. unfold exec.
    destruct (default None _); [by right|].
    unfold insert_row. destruct (head _); [by right|].
    left. eexists. split; [|reflexivity]. unfold get. by simplify_map_eq. }
  destruct (data existing) as [[|found l]|] eqn:Hd.
  - right. apply Hnew.
  - left. exists found. split; [|done]. eapply Hex; [done|]. apply list_elem_of_here.
  - right. apply Hnew.
Qed.

(** What [fetchConversations] of the conversations hook keeps and resets. *)
Lemma fetchConversations_keeps uid faults s c :
  let out := run (UseConversations.fetchConversations (Some uid)) faults s c in
  out.1.1 = s /\
  loading (ui out.1.2) = false /\
  currentConversation (ui out.1.2) = currentConversation (ui c) /\
  messages out.1.2 = messages c /\
  vw out.1.2 = vw c.
Proof.
  destruct (run_fetchConversations uid faults s c) as (fault & _ & ->).
  cbn zeta. by destruct (error _).
Qed.

(** [handleCreateConversation] returns what [createConversation] returns,
    and leaves the hook state that [createConversation] left or the one a
    list refresh made of it. *)
Lemma handleCreateConversation_after user receiver subject msg pid faults s c :
  let created :=
    run (UseConversations.createConversation user receiver subject msg pid) faults s c in
  let out :=
    run (UseMessaging.handleCreateConversation user receiver subject msg pid) faults s c in
  out.2 = created.2 /\
  (ui out.1.2 = ui created.1.2 \/
   exists F s1 c1,
     ui c1 = ui created.1.2 /\ is_Some created.2 /\
     out.1.2 = (run (UseConversations.fetchConversations user) F s1 c1).1.2).
Proof.
  intros created out. subst out.
  unfold UseMessaging.handleCreateConversation, UseMessaging.createConversation.
  rewrite run_bind. fold created.
  destruct created as [[s1 c1] [conv|]]; cbn [fst snd].
  - destruct msg as [text|]; [|by split; [|left]].
    destruct (String.eqb text EmptyString); [by split; [|left]|].
    run_step.
    destruct (exec_client (OHook (SendMessageBase user (get conv "id") text None))
                (default None (head (leftover
                   (UseConversations.createConversation user receiver subject (Some text) pid)
                   faults s c))) s1 c1) as (Hui & _).
    destruct (exec _ _ s1 c1) as [[s2 c2] resp]. cbn [fst snd] in *.
    destruct (error resp); [by split; [|left]|].
    rewrite run_bind. cbn [run fst snd]. split; [done|].
    right. unfold UseMessaging.fetchConversations. eauto 10.
  - by split; [|left].
Qed.

(** ** X1: the loading flag is always reset *)

(** X1.  Every call of a signed-in user to [fetchConversations] (either
    implementation), to [createConversation] and to
    [handleCreateConversation] ends with the loading flag of the
    conversations hook off, whichever requests fail. *)
Theorem loading_is_reset (uid receiver : string) (subject msg pid : option string)
    (faults : list (option string)) (s : store) (c : client) :
  loading (ui (run (UseConversations.fetchConversations (Some uid)) faults s c).1.2) = false /\
  loading (ui (run (UseFetchConversations.fetchConversations (Some uid)) faults s c).1.2)
    = false /\
  loading (ui (run (UseConversations.createConversation (Some uid) receiver subject msg pid)
                   faults s c).1.2) = false /\
  loading (ui (run (UseMessaging.handleCreateConversation (Some uid) receiver subject msg pid)
                   faults s c).1.2) = false.
Proof.
  assert (Hcreate :
    loading (ui (run (UseConversations.createConversation (Some uid) receiver subject msg pid)
                   faults s c).1.2) = false).
  { destruct (run_createConversation uid receiver subject msg pid faults s c)
      as [(conv & _ & ->) | [(conv & _ & ->) | ->]]; done. }
  split; [apply fetchConversations_keeps|].
  split; [rewrite run_fetchConversations_mapped; cbn zeta; by destruct (error _)|].
  split; [exact Hcreate|].
  destruct (handleCreateConversation_after (Some uid) receiver subject msg pid faults s c)
    as (_ & [-> | (F & s1 & c1 & _ & _ & ->)]); [exact Hcreate|].
  apply fetchConversations_keeps.
Qed.

(** ** X2: a list fetch only reads *)

(** X2.  [fetchConversations] (either implementation, signed in or not,
    whichever requests fail) leaves the store, the current conversation and
    the message list as they were: a refresh of the list never changes or
    refreshes the selection. *)
Theorem fetchConversations_read_only (user : option string)
    (faults : list (option string)) (s : store) (c : client) :
  let raw := run (UseConversations.fetchConversations user) faults s c in
  let mapped := run (UseFetchConversations.fetchConversations user) faults s c in
  (raw.1.1 = s /\
   currentConversation (ui raw.1.2) = currentConversation (ui c) /\
   messages raw.1.2 = messages c) /\
  (mapped.1.1 = s /\
   currentConversation (ui mapped.1.2) = currentConversation (ui c) /\
   messages mapped.1.2 = messages c).
Proof.
  destruct user as [uid|]; [|done]. split.
  - destruct (fetchConversations_keeps uid faults s c) as (? & _ & ? & ? & _). done.
  - rewrite run_fetchConversations_mapped. cbn zeta. by destruct (error _).
Qed.

(** ** X3: the conversation a start returns is the current one *)

(** X3.  When [handleCreateConversation] returns a conversation, found or
    new, with or without a first message, that conversation is the current
    conversation of the hook when the call ends, and it is what
    [createConversation] itself returned. *)
Theorem started_conversation_is_current (user : option string) (receiverId : string)
    (subject msg pid : option string) (faults : list (option string))
    (s : store) (c : client) (conv : obj) :
  let out :=
    run (UseMessaging.handleCreateConversation user receiverId subject msg pid) faults s c in
  out.2 = Some conv ->
  currentConversation (ui out.1.2) = Some conv /\
  (run (UseConversations.createConversation user receiverId subject msg pid) faults s c).2
    = Some conv.
Proof.
  intros out Hout. subst out.
  destruct (handleCreateConversation_after user receiverId subject msg pid faults s c)
    as (Hres & Hui).
  rewrite Hout in Hres. symmetry in Hres. split; [|done].
  assert (Hcur : currentConversation
            (ui (run (UseConversations.createConversation user receiverId subject msg pid)
                     faults s c).1.2) = Some conv).
  { destruct user as [uid|]; [|done].
    destruct (run_createConversation uid receiverId subject msg pid faults s c)
      as [(conv' & _ & Hrun) | [(conv' & _ & Hrun) | Hrun]];
      rewrite Hrun in Hres |- *; cbn in *; congruence. }
  destruct Hui as [-> | (F & s1 & c1 & Hc1 & _ & ->)]; [done|].
  destruct user as [uid|]; [|done].
  destruct (fetchConversations_keeps uid F s1 c1) as (_ & _ & -> & _). by rewrite Hc1.
Qed.

(** X3, witness: u1 starts a conversation with u2 about p1; the send of the
    first message fails. *)
Lemma started_conversation_is_current_witness :
  currentConversation
    (ui (run (UseMessaging.handleCreateConversation (Some "u1") "u2" (Some "Inquiry")
                (Some "Is this available?") (Some "p1"))
             start_faults empty_store (fresh_client 10)).1.2) = Some started_conversation /\
  (run (UseConversations.createConversation (Some "u1") "u2" (Some "Inquiry")
          (Some "Is this available?") (Some "p1"))
       start_faults empty_store (fresh_client 10)).2 = Some started_conversation.
Proof.
  apply (started_conversation_is_current (Some "u1") "u2" (Some "Inquiry")
           (Some "Is this available?") (Some "p1") start_faults empty_store (fresh_client 10)
           started_conversation).
  vm_compute. reflexivity.
Defined.

(** ** X4: the list and the store grow together *)

(** X4.  A [createConversation] of a signed-in user either inserts nothing
    and leaves the in-memory list as it was (a conversation was found, which
    is selected but not added to the list, or the call failed), or it appends
    exactly one row to the table and puts that same conversation at the head
    of the in-memory list. *)
Theorem createConversation_list_and_store (uid receiverId : string)
    (subject msg pid : option string) (faults : list (option string))
    (s : store) (c : client) :
  let out :=
    run (UseConversations.createConversation (Some uid) receiverId subject msg pid)
        faults s c in
  (out.1.1 = s /\ conversations (ui out.1.2) = conversations (ui c)) \/
  (exists conv,
     out.2 = Some conv /\
     rows (conversations_tbl out.1.1) = rows (conversations_tbl s) ++ [conv] /\
     conversations (ui out.1.2) = conv :: conversations (ui c)).
Proof.
  destruct (run_createConversation uid receiverId subject msg pid faults s c)
    as [(conv & _ & ->) | [(conv & _ & ->) | ->]]; cbn zeta.
  - by left.
  - right. by exists conv.
  - by left.
Qed.

(** ** X5: the existence check does not depend on who asks *)

Lemma leftover_await o faults s c : leftover (await o) faults s c = tail faults.
Proof. unfold await. cbn [leftover]. by destruct (exec _ _ _ _) as [[? ?] ?]. Qed.

Lemma matches_either_side (a b v : string) (r : obj) :
  matches_all [Contains "participants" [a; b]; Eq "propertyId" v] r =
  matches_all [Contains "participants" [b; a]; Eq "propertyId" v] r.
Proof.
  unfold matches_all, matches, cell_contains. cbn [forallb].
  destruct (get r "participants"); try done. cbn [forallb].
  by destruct (bool_decide (a ∈ l)), (bool_decide (b ∈ l)).
Qed.

(** The columns of the table are the same after any [createConversation]. *)
Lemma createConversation_columns uid receiver subject msg pid faults s c :
  columns (conversations_tbl
             (run (UseConversations.createConversation (Some uid) receiver subject msg pid)
                  faults s c).1.1) = columns (conversations_tbl s).
Proof.
  destruct (run_createConversation uid receiver subject msg pid faults s c)
    as [(conv & _ & ->) | [(conv & _ & ->) | ->]]; done.
Qed.

(** After the first call has inserted the conversation, the existence check
    of either participant for the other finds exactly that conversation. *)
Lemma inserted_is_found uid receiver a b subject msg (p : string) s c :
  (a = uid /\ b = receiver) \/ (a = receiver /\ b = uid) ->
  p <> EmptyString ->
  data (run_query (conversations_tbl s)
          (UseConversations.existing_query uid receiver (Some p))) = Some [] ->
  ["participants"; "lastMessageAt"; "subject"; "propertyId"; "unreadCount"]
    ⊆ columns (conversations_tbl s) ->
  let first :=
    run (UseConversations.createConversation (Some uid) receiver subject msg (Some p)) [] s c in
  exists conv,
    first.2 = Some conv /\
    data (run_query (conversations_tbl first.1.1)
            (UseConversations.existing_query a b (Some p))) = Some [conv].
Proof.
  intros Hab Hp Hnone Hcols first.
  destruct (createConversation_inserts uid receiver subject msg (Some p) s c Hnone Hcols)
    as (conv & Hret & Hrows & _ & _ & Hpart & Hprop & _).
  fold first in Hret, Hrows.
  pose proof (createConversation_columns uid receiver subject msg (Some p) [] s c) as Hcolumns.
  fold first in Hcolumns.
  exists conv. split; [done|].
  unfold UseConversations.existing_query in *.
  assert (Hmatch : matches_all
            [Contains "participants" [a; b]; Eq "propertyId" (str_or (Some p) EmptyString)]
            conv = true).
  { unfold matches_all, matches. cbn [forallb]. rewrite Hpart, Hprop.
    cbn. apply String.eqb_neq in Hp. rewrite Hp. cbn.
    destruct Hab as [[-> ->] | [-> ->]];
      rewrite !bool_decide_eq_true_2 by set_solver; cbn; by rewrite String.eqb_refl. }
  assert (Hold : filter (fun r => matches_all
                   [Contains "participants" [a; b];
                    Eq "propertyId" (str_or (Some p) EmptyString)] r)
                   (rows (conversations_tbl s)) = []).
  { rewrite run_query_plain in Hnone.
    destruct (unknown_column _ _); [done|]. unfold ok_rows, data in Hnone.
    injection Hnone as Hnone.
    destruct Hab as [[-> ->] | [-> ->]]; [done|].
    rewrite <- Hnone. apply list_filter_iff. intros r.
    by rewrite matches_either_side. }
  rewrite run_query_plain.
  assert (unknown_column (conversations_tbl first.1.1)
            (Query None [Contains "participants" [a; b];
                         Eq "propertyId" (str_or (Some p) EmptyString)] None None) = None)
    as ->.
  { unfold unknown_column. rewrite Hcolumns.
    rewrite run_query_plain in Hnone. unfold unknown_column in Hnone.
    cbn [q_filters q_order_desc q_select fmap list_fmap filter_col from_option app] in *.
    by destruct (head _). }
  unfold ok_rows, data. rewrite Hrows, filter_app, Hold. cbn [app].
  rewrite filter_cons_True, filter_nil; [done|]. by rewrite Hmatch.
Qed.

(** X5.  With a property id, once a call has inserted the conversation, a
    later call for the same pair and property returns that same conversation
    and inserts nothing, whether it is made by the same user or by the other
    participant (the check on the participants does not depend on their
    order). *)
Theorem createConversation_dedup_either_side (uid receiver : string)
    (subject msg subject' msg' : option string) (p : string)
    (s : store) (c c1 c2 : client) :
  p <> EmptyString ->
  data (run_query (conversations_tbl s)
          (UseConversations.existing_query uid receiver (Some p))) = Some [] ->
  ["participants"; "lastMessageAt"; "subject"; "propertyId"; "unreadCount"]
    ⊆ columns (conversations_tbl s) ->
  let first :=
    run (UseConversations.createConversation (Some uid) receiver subject msg (Some p)) [] s c in
  let again :=
    run (UseConversations.createConversation (Some uid) receiver subject' msg' (Some p)) []
        first.1.1 c1 in
  let other :=
    run (UseConversations.createConversation (Some receiver) uid subject' msg' (Some p)) []
        first.1.1 c2 in
  is_Some first.2 /\
  (again.2 = first.2 /\ again.1.1 = first.1.1) /\
  (other.2 = first.2 /\ other.1.1 = first.1.1).
Proof.
  intros Hp Hnone Hcols first again other.
  destruct (inserted_is_found uid receiver uid receiver subject msg p s c
              (or_introl (conj eq_refl eq_refl)) Hp Hnone Hcols) as (conv & Hret & Hsame).
  destruct (inserted_is_found uid receiver receiver uid subject msg p s c
              (or_intror (conj eq_refl eq_refl)) Hp Hnone Hcols) as (conv' & Hret' & Hother).
  fold first in Hret, Hsame, Hret', Hother.
  assert (conv' = conv) as -> by congruence.
  subst again other.
  rewrite (createConversation_returns_existing uid receiver subject' msg' (Some p) []
             first.1.1 c1 conv [] (or_introl eq_refl) Hsame).
  rewrite (createConversation_returns_existing receiver uid subject' msg' (Some p) []
             first.1.1 c2 conv [] (or_introl eq_refl) Hother).
  cbn [fst snd]. rewrite Hret. eauto.
Qed.

(** The camelCase table has the columns [createConversation] writes. *)
Lemma camel_columns_written :
  ["participants"; "lastMessageAt"; "subject"; "propertyId"; "unreadCount"]
    ⊆ columns (conversations_tbl empty_store).
Proof.
  cbn. intros x. unfold camel_columns. rewrite !elem_of_cons, elem_of_nil. tauto.
Qed.

(** X5, witness: u1 starts a conversation with u2 about p1 on the empty
    store; u1 asks again, and u2 asks for u1. *)
Lemma createConversation_dedup_either_side_witness :
  let first :=
    run (UseConversations.createConversation (Some "u1") "u2" (Some "Inquiry") None (Some "p1"))
        [] empty_store (fresh_client 10) in
  let again :=
    run (UseConversations.createConversation (Some "u1") "u2" None None (Some "p1")) []
        first.1.1 (fresh_client 20) in
  let other :=
    run (UseConversations.createConversation (Some "u2") "u1" None None (Some "p1")) []
        first.1.1 (fresh_client 30) in
  is_Some first.2 /\
  (again.2 = first.2 /\ again.1.1 = first.1.1) /\
  (other.2 = first.2 /\ other.1.1 = first.1.1).
Proof.
  apply (createConversation_dedup_either_side "u1" "u2" (Some "Inquiry") None None None "p1"
           empty_store (fresh_client 10) (fresh_client 20) (fresh_client 30)).
  - discriminate.
  - vm_compute. reflexivity.
  - exact camel_columns_written.
Defined.

(** ** X6: a failed existence check counts as nothing found *)

(** X6.  When the existence check itself fails and the later requests
    succeed, [createConversation] goes on as if no conversation existed: it
    inserts a new row for the pair, whatever the table already holds, and
    returns it. *)
Theorem failed_check_inserts (uid receiverId : string) (subject msg pid : option string)
    (e : string) (s : store) (c : client) :
  ["participants"; "lastMessageAt"; "subject"; "propertyId"; "unreadCount"]
    ⊆ columns (conversations_tbl s) ->
  let out :=
    run (UseConversations.createConversation (Some uid) receiverId subject msg pid)
        [Some e] s c in
  exists conv,
    out.2 = Some conv /\
    rows (conversations_tbl out.1.1) = rows (conversations_tbl s) ++ [conv] /\
    get conv "participants" = VStrs [uid; receiverId] /\
    get conv "propertyId" = str_or_null pid.
Proof.
  intros Hcols. unfold UseConversations.createConversation.
  do 2 run_step. cbn [leftover setState default from_option id head failed data].
  do 3 run_step. unfold exec. rewrite !leftover_await. cbn [tail].
  rewrite !leftover_nil. cbn [default head].
  unfold insert_row.
  set (new := UseConversations.newConversation uid receiverId _ subject pid).
  assert (filter (fun k => k ∉ columns (conversations_tbl s)) (map_to_list new).*1 = [])
    as ->.
  { apply filter_none, Forall_forall. intros k Hk Hnot. apply Hnot, Hcols.
    by eapply newConversation_keys. }
  cbn. eexists. split; [done|]. split; [done|].
  unfold get, new, UseConversations.newConversation.
  split; by simplify_map_eq.
Qed.

(** X6, witness: the store already holds the conversation of u1 and u2
    about p1; the check of u1 fails; a second conversation is inserted. *)
Lemma failed_check_inserts_witness :
  let out :=
    run (UseConversations.createConversation (Some "u1") "u2" None None (Some "p1"))
        [Some "StoreUnavailable"] store_one (fresh_client 10) in
  exists conv,
    out.2 = Some conv /\
    rows (conversations_tbl out.1.1) = rows (conversations_tbl store_one) ++ [conv] /\
    get conv "participants" = VStrs ["u1"; "u2"] /\
    get conv "propertyId" = str_or_null (Some "p1").
Proof.
  apply (failed_check_inserts "u1" "u2" None None (Some "p1") "StoreUnavailable"
           store_one (fresh_client 10)).
  exact camel_columns_written.
Defined.

(** ** X7: without a property id every call inserts *)

(** X7.  When no stored conversation has the empty string as its property
    id (and [createConversation] never stores one: it stores null), a call
    without a property id finds nothing and inserts a new conversation with
    a null property id, even when the table already holds conversations of
    the same pair. *)
Theorem createConversation_without_property_inserts (uid receiverId : string)
    (subject msg pid : option string) (s : store) (c : client) :
  pid = None \/ pid = Some EmptyString ->
  Forall (fun r => get r "propertyId" <> VStr EmptyString) (rows (conversations_tbl s)) ->
  ["participants"; "lastMessageAt"; "subject"; "propertyId"; "unreadCount"]
    ⊆ columns (conversations_tbl s) ->
  let out :=
    run (UseConversations.createConversation (Some uid) receiverId subject msg pid) [] s c in
  exists conv,
    out.2 = Some conv /\
    rows (conversations_tbl out.1.1) = rows (conversations_tbl s) ++ [conv] /\
    get conv "propertyId" = VNull /\
    Forall (fun r => get r "propertyId" <> VStr EmptyString)
           (rows (conversations_tbl out.1.1)).
Proof.
  intros Hpid Hrows Hcols.
  assert (Hnone : data (run_query (conversations_tbl s)
                          (UseConversations.existing_query uid receiverId pid)) = Some []).
  { unfold UseConversations.existing_query. rewrite run_query_plain.
    assert (unknown_column (conversations_tbl s)
              (Query None [Contains "participants" [uid; receiverId];
                           Eq "propertyId" (str_or pid EmptyString)] None None) = None) as ->.
    { unfold unknown_column.
      cbn [q_filters q_order_desc q_select fmap list_fmap filter_col from_option app].
      rewrite filter_none; [done|].
      repeat constructor; intros Hnot; apply Hnot, Hcols;
        rewrite !elem_of_cons; tauto. }
    unfold ok_rows, data. f_equal. apply filter_none.
    eapply Forall_impl; [exact Hrows|]. intros r Hr.
    unfold matches_all, matches. cbn [forallb].
    assert (str_or pid EmptyString = EmptyString) as -> by (by destruct Hpid as [-> | ->]).
    cbn beta in Hr.
    destruct (get r "propertyId") as [| |num|txt|arr|tm]; cbn; rewrite ?andb_false_r;
      try (by intros []).
    destruct (String.eqb_spec txt EmptyString) as [-> | Hne]; [done|].
    cbn. rewrite andb_false_r. by intros []. }
  destruct (createConversation_inserts uid receiverId subject msg pid s c Hnone Hcols)
    as (conv & Hret & Hnew & _ & _ & _ & Hprop & _).
  assert (Hnull : get conv "propertyId" = VNull).
  { rewrite Hprop. by destruct Hpid as [-> | ->]. }
  exists conv. split; [done|]. split; [done|]. split; [done|].
  rewrite Hnew. apply Forall_app. split; [done|].
  constructor; [|done]. by rewrite Hnull.
Qed.

(** X7, witness: u1 starts a general conversation with u2 on the store of
    [create_twice] after its first call. *)
Lemma createConversation_without_property_inserts_witness :
  let s := (run (UseConversations.createConversation (Some "u1") "u2" None None None)
                [] empty_store (fresh_client 10)).1.1 in
  let out :=
    run (UseConversations.createConversation (Some "u1") "u2" None None None) [] s
        (fresh_client 20) in
  exists conv,
    out.2 = Some conv /\
    rows (conversations_tbl out.1.1) = rows (conversations_tbl s) ++ [conv] /\
    get conv "propertyId" = VNull /\
    Forall (fun r => get r "propertyId" <> VStr EmptyString)
           (rows (conversations_tbl out.1.1)).
Proof.
  apply (createConversation_without_property_inserts "u1" "u2" None None None).
  - by left.
  - vm_compute. repeat constructor. discriminate.
  - rewrite createConversation_columns. exact camel_columns_written.
Defined.

(** ** X8: how a send ends *)

Lemma requests_fetchConversations uid faults s c :
  exists middle,
    requests (UseConversations.fetchConversations (Some uid)) faults s c =
    OQuery probe_query :: middle ++ [OQuery (UseConversations.list_query uid)].
Proof.
  unfold UseConversations.fetchConversations.
  rewrite requests_bind. cbn [requests setState app].
  rewrite requests_bind, requests_ensureTablesExist, requests_bind.
  cbn [requests await]. rewrite run_await.
  destruct (exec _ _ _ _) as [[s' c'] resp]. cbn [fst snd].
  assert (requests
            match error resp with
            | Some _ =>
                toast "Could not load conversations" >>
                setState (fun prev => set_conversations [] (set_loading false prev))
            | None =>
                setState (fun prev =>
                  set_loading false (set_conversations (default [] (data resp)) prev))
            end
            (leftover (await (OQuery (UseConversations.list_query uid)))
               (leftover UseConversations.ensureTablesExist
                  (leftover (setState (set_loading true)) faults s c)
                  (run (setState (set_loading true)) faults s c).1.1
                  (run (setState (set_loading true)) faults s c).1.2)
               (run UseConversations.ensureTablesExist
                  (leftover (setState (set_loading true)) faults s c)
                  (run (setState (set_loading true)) faults s c).1.1
                  (run (setState (set_loading true)) faults s c).1.2).1.1
               (run UseConversations.ensureTablesExist
                  (leftover (setState (set_loading true)) faults s c)
                  (run (setState (set_loading true)) faults s c).1.1
                  (run (setState (set_loading true)) faults s c).1.2).1.2)
            s' c' = []) as -> by (by destruct (error resp)).
  rewrite app_nil_r. cbn [app]. eauto.
Qed.

(** X8.  A [handleSendMessage] of a signed-in user ends in one of two ways.
    It throws: then the send or the message fetch was rejected, nothing was
    requested after the rejected request, the state of the conversations hook
    is untouched and exactly one toast "Error sending message" was shown.  Or
    it returns true: then the send, the message fetch and the refresh of the
    conversation list were requested in this order, and a refresh that failed
    did not make the call fail but left the conversation list empty. *)
Theorem handleSendMessage_outcome (uid cid content : string) (att : option (list string))
    (faults : list (option string)) (s : store) (c : client) :
  let call := UseMessaging.handleSendMessage (Some uid) cid content att in
  let out := run call faults s c in
  let reqs := requests call faults s c in
  let send := OHook (SendMessageBase (Some uid) (VStr cid) content att) in
  let fetch := OHook (FetchMessagesBase (VStr cid)) in
  match out.2 with
  | Thrown _ =>
      (reqs = [send] \/ reqs = [send; fetch]) /\
      ui out.1.2 = ui c /\
      toasts out.1.2 = toasts c ++ ["Error sending message"]
  | Returned b =>
      b = true /\
      (exists middle,
         reqs = send :: fetch :: OQuery probe_query :: middle ++
                [OQuery (UseConversations.list_query uid)]) /\
      loading (ui out.1.2) = false /\
      (toasts out.1.2 = toasts c \/
       toasts out.1.2 = toasts c ++ ["Could not load conversations"] /\
       conversations (ui out.1.2) = [])
  end.
Proof.
  unfold UseMessaging.handleSendMessage, await. cbn [bind run requests].
  pose proof (exec_client (OHook (SendMessageBase (Some uid) (VStr cid) content att))
                (default None (head faults)) s c) as (Hui1 & Ht1 & _).
  destruct (exec _ _ s c) as [[s1 c1] r1]. cbn [fst snd] in *.
  destruct (error r1) as [e1|].
  { cbn. rewrite Hui1, Ht1. auto. }
  cbn [bind run requests].
  pose proof (exec_client (OHook (FetchMessagesBase (VStr cid)))
                (default None (head (tail faults))) s1 c1) as (Hui2 & Ht2 & _).
  destruct (exec _ _ s1 c1) as [[s2 c2] r2]. cbn [fst snd] in *.
  destruct (error r2) as [e2|].
  { cbn. rewrite Hui2, Hui1, Ht2, Ht1. auto. }
  unfold UseMessaging.fetchConversations.
  rewrite run_bind, requests_bind. cbn [run requests fst snd]. rewrite app_nil_r.
  destruct (requests_fetchConversations uid (tail (tail faults)) s2 c2) as [middle ->].
  destruct (run_fetchConversations uid (tail (tail faults)) s2 c2) as (fault & _ & ->).
  cbn zeta. split; [done|]. split; [by exists middle|].
  destruct (error _); cbn; rewrite Ht2, Ht1; auto.
Qed.

(** ** X9: what a delete does to the client *)

(** X9.  [handleDeleteConversation] issues one request, the delete.  Whether
    it is answered or rejected, the in-memory conversation list and the
    message list stay as they were (a deleted conversation stays in the list
    until the list is fetched again), and the selection is cleared exactly
    when the conversation being deleted is the current one.  The toast "Error
    deleting conversation" is shown exactly when the call returns false. *)
Theorem handleDeleteConversation_effect (user : option string) (cid : string)
    (faults : list (option string)) (s : store) (c : client) :
  let call := UseMessaging.handleDeleteConversation user cid in
  let out := run call faults s c in
  requests call faults s c = [OHook (DeleteConversation user (VStr cid))] /\
  conversations (ui out.1.2) = conversations (ui c) /\
  messages out.1.2 = messages c /\
  currentConversation (ui out.1.2) =
    (if UseMessaging.is_current cid (ui c) then None else currentConversation (ui c)) /\
  toasts out.1.2 =
    (if out.2 then toasts c else toasts c ++ ["Error deleting conversation"]).
Proof.
  unfold UseMessaging.handleDeleteConversation, getState.
  cbn [bind run requests]. unfold UseConversations.setCurrentConversation.
  destruct (UseMessaging.is_current cid (ui c)) eqn:Hcur;
    cbn [bind run requests await]; unfold exec;
    (destruct (default None _);
     [by cbn
     |cbn [exec_hook]; destruct (deleteConversation _ _ _) as [s' r];
      by destruct (error r)]).
Qed.

(** ** X10: when the first message of a start is sent *)

(** X10.  [handleCreateConversation] first does what [createConversation]
    does.  It then sends the first message exactly when a conversation was
    returned and the message is not empty, into the conversation that was
    returned, as the next request; otherwise it requests nothing more. *)
Theorem handleCreateConversation_requests (user : option string) (receiverId : string)
    (subject msg pid : option string) (faults : list (option string))
    (s : store) (c : client) :
  let create := UseConversations.createConversation user receiverId subject msg pid in
  let call := UseMessaging.handleCreateConversation user receiverId subject msg pid in
  match (run create faults s c).2, msg with
  | Some conv, Some text =>
      if String.eqb text EmptyString
      then requests call faults s c = requests create faults s c
      else exists rest,
             requests call faults s c =
             requests create faults s c ++
             OHook (SendMessageBase user (get conv "id") text None) :: rest
  | _, _ => requests call faults s c = requests create faults s c
  end.
Proof.
  cbn zeta. unfold UseMessaging.handleCreateConversation, UseMessaging.createConversation.
  rewrite requests_bind.
  destruct (run _ faults s c) as [[s1 c1] [conv|]]; cbn [fst snd].
  - destruct msg as [text|]; [|by rewrite app_nil_r].
    destruct (String.eqb text EmptyString); [by rewrite app_nil_r|].
    rewrite requests_bind. cbn [requests await].
    destruct (exec _ _ s1 c1) as [[s2 c2] resp]. cbn [app]. eauto.
  - cbn. by rewrite app_nil_r.
Qed.

(** ** X11: how the view's send ends *)

(** The facade's send never touches the state of the view. *)
Lemma handleSendMessage_view user cid content att faults s c :
  vw (run (UseMessaging.handleSendMessage user cid content att) faults s c).1.2 = vw c.
Proof.
  unfold UseMessaging.handleSendMessage, await. cbn [bind run].
  pose proof (exec_client (OHook (SendMessageBase user (VStr cid) content att))
                (default None (head faults)) s c) as (_ & _ & Hv1 & _).
  destruct (exec _ _ s c) as [[s1 c1] r1]. cbn [fst snd] in *.
  destruct (error r1) as [e1|]; [by cbn|].
  cbn [bind run].
  pose proof (exec_client (OHook (FetchMessagesBase (VStr cid)))
                (default None (head (tail faults))) s1 c1) as (_ & _ & Hv2 & _).
  destruct (exec _ _ s1 c1) as [[s2 c2] r2]. cbn [fst snd] in *.
  destruct (error r2) as [e2|]; [cbn; congruence|].
  unfold UseMessaging.fetchConversations. rewrite run_bind. cbn [run fst snd].
  destruct user as [uid|]; [|cbn; congruence].
  destruct (fetchConversations_keeps uid (tail (tail faults)) s2 c2) as (_ & _ & _ & _ & ->).
  congruence.
Qed.

(** X11.  The view's [handleSendMessage], with the facade's send as its
    [onSendMessage]: for a blank content and no selected file it does
    nothing.  Otherwise it runs the facade's send with the content and the
    selected files; when the call has ended [isSending] is off, the selected
    files are cleared when the send returned and are kept when it threw, and
    the store and the hook state are those the facade's send left. *)
Theorem view_send_completes (user : option string) (cid content : string)
    (faults : list (option string)) (s : store) (c : client) :
  let out := run (view_send user cid content) faults s c in
  if blank content && bool_decide (selectedFiles (vw c) = [])
  then out = (s, c, tt)
  else
    let sending := with_view (fun v => View (selectedFiles v) true) c in
    let inner :=
      run (UseMessaging.handleSendMessage user cid content (view_files c)) faults s sending in
    out.1.1 = inner.1.1 /\
    ui out.1.2 = ui inner.1.2 /\
    toasts out.1.2 = toasts inner.1.2 /\
    isSending (vw out.1.2) = false /\
    selectedFiles (vw out.1.2) =
      match inner.2 with
      | Returned _ => []
      | Thrown _ => selectedFiles (vw c)
      end.
Proof.
  unfold view_send, ConversationView.handleSendMessage, view_files. cbn [run].
  destruct (blank content && _); [done|].
  rewrite run_bind. cbn [run ConversationView.setIsSending fst snd leftover].
  rewrite run_bind.
  pose proof (handleSendMessage_view user cid content
                (if bool_decide (selectedFiles (vw c) = []) then None
                 else Some (selectedFiles (vw c)))
                faults s (with_view (fun v => View (selectedFiles v) true) c)) as Hv.
  destruct (run (UseMessaging.handleSendMessage _ _ _ _) faults s _) as [[s1 c1] r].
  cbn [fst snd] in *.
  rewrite run_bind.
  destruct r as [b|e]; cbn; rewrite ?Hv; done.
Qed.

(** ** X12: removing a selected file *)

Lemma filter_index_ext {A : Type} (f g : nat -> bool) (k : nat) (l : list A) :
  (forall i, k <= i -> f i = g i) ->
  ViewState.filter_index f k l = ViewState.filter_index g k l.
Proof.
  revert k. induction l as [|x l IH]; intros k Hfg; [done|].
  cbn [ViewState.filter_index]. rewrite (Hfg k) by lia.
  rewrite (IH (S k)); [done|]. intros i Hi. apply Hfg. lia.
Qed.

Lemma filter_index_all {A : Type} (f : nat -> bool) (k : nat) (l : list A) :
  (forall i, k <= i -> f i = true) -> ViewState.filter_index f k l = l.
Proof.
  revert k. induction l as [|x l IH]; intros k Hf; [done|].
  cbn [ViewState.filter_index]. rewrite (Hf k) by lia.
  rewrite (IH (S k)); [done|]. intros i Hi. apply Hf. lia.
Qed.

Lemma filter_index_delete {A : Type} (index k : nat) (l : list A) :
  ViewState.filter_index (fun i => negb (i =? k + index)) k l = delete index l.
Proof.
  revert index k. induction l as [|x l IH]; intros index k; [done|].
  cbn [ViewState.filter_index]. destruct index as [|index].
  - rewrite Nat.add_0_r, Nat.eqb_refl. cbn [negb].
    change (delete 0 (x :: l)) with l.
    apply filter_index_all. intros i Hi.
    apply negb_true_iff, Nat.eqb_neq. lia.
  - assert ((k =? k + S index) = false) as -> by (apply Nat.eqb_neq; lia).
    cbn [negb]. change (delete (S index) (x :: l)) with (x :: delete index l). f_equal.
    rewrite <- (IH index (S k)). apply filter_index_ext.
    intros i _. by replace (k + S index) with (S k + index) by lia.
Qed.

(** X12.  [handleRemoveFile] removes the selected file at the given
    position and nothing else: the files before it keep their positions, the
    files after it move up by one, a position past the end removes nothing,
    and [isSending] is untouched. *)
Theorem handleRemoveFile_removes (index : nat) (v : view) :
  let v' := ViewState.handleRemoveFile index v in
  isSending v' = isSending v /\
  (forall i, i < index -> selectedFiles v' !! i = selectedFiles v !! i) /\
  (forall i, index <= i -> selectedFiles v' !! i = selectedFiles v !! S i) /\
  (length (selectedFiles v) <= index -> selectedFiles v' = selectedFiles v).
Proof.
  unfold ViewState.handleRemoveFile. cbn [isSending selectedFiles].
  rewrite (filter_index_delete index 0).
  split; [done|]. split; [|split].
  - intros i Hi. by apply list_lookup_delete_lt.
  - intros i Hi. by apply list_lookup_delete_ge.
  - intros Hlen. rewrite delete_take_drop, take_ge, drop_ge by lia. apply app_nil_r.
Qed.

(** ** X13: the names in the header *)

Lemma before_at_clean (s : string) : contains_at (ViewState.before_at s) = false.
Proof.
  induction s as [|a s IH]; [done|]. cbn [ViewState.before_at].
  destruct (Ascii.eqb a ViewState.at_sign) eqn:Ha; [done|].
  cbn [contains_at]. by rewrite Ha, IH.
Qed.

Lemma or_default_clean (s d : string) :
  d <> EmptyString -> contains_at d = false ->
  ViewState.or_default (ViewState.before_at s) d <> EmptyString /\
  contains_at (ViewState.or_default (ViewState.before_at s) d) = false.
Proof.
  intros Hd Hclean. unfold ViewState.or_default.
  destruct (String.eqb_spec (ViewState.before_at s) EmptyString) as [Heq|Hne]; [done|].
  split; [done|]. apply before_at_clean.
Qed.

(** X13.  The names the header shows are never empty and never hold an at
    sign, whatever the participants are (an empty list included).  For a
    conversation of two participants the name after "To:" is taken from the
    first participant and the name after "From:" from the second, or is
    "Buyer" when the two are the same. *)
Theorem header_names (participants : list string) (a b : string) :
  (ViewState.sellerName participants <> EmptyString /\
   contains_at (ViewState.sellerName participants) = false /\
   ViewState.buyerName participants <> EmptyString /\
   contains_at (ViewState.buyerName participants) = false) /\
  ViewState.sellerName [a; b] = ViewState.or_default (ViewState.before_at a) "Seller" /\
  ViewState.buyerName [a; b] =
    (if String.eqb b a then "Buyer"
     else ViewState.or_default (ViewState.before_at b) "Buyer").
Proof.
  split.
  - unfold ViewState.sellerName, ViewState.buyerName.
    destruct (or_default_clean (ViewState.seller participants) "Seller") as [? ?]; [done..|].
    destruct (or_default_clean (ViewState.otherParticipant participants) "Buyer") as [? ?];
      done.
  - split; [done|].
    unfold ViewState.buyerName, ViewState.otherParticipant. cbn [List.find].
    rewrite String.eqb_refl. cbn [negb]. by destruct (String.eqb b a).
Qed.

(** ** X14: what the mapped fetch never hands over *)

Lemma js_or_clean (a b : jsval) :
  no_null_no_empty b -> no_null_no_empty (js_or a b).
Proof.
  intros Hb. unfold js_or. destruct (truthy a) eqn:Ha; [|done].
  split; intros ->; done.
Qed.

(** X14.  Whatever the store holds and whichever requests fail, every
    conversation that the mapped [fetchConversations] leaves in the list has
    a subject, a property id and an unread count that are neither null nor
    the empty string, and an unread count that is not undefined: a missing
    subject or property id is undefined, a missing unread count is 0. *)
Theorem mapped_conversations_normalised (uid : string) (faults : list (option string))
    (s : store) (c : client) :
  Forall normalised
    (conversations (ui (run (UseFetchConversations.fetchConversations (Some uid))
                            faults s c).1.2)).
Proof.
  rewrite run_fetchConversations_mapped. cbn zeta.
  destruct (error _); cbn; [constructor|].
  destruct (data _) as [d|]; [|constructor].
  apply Forall_fmap, Forall_forall. intros r _. unfold normalised. cbn.
  destruct (mapConversation_fields r) as (_ & _ & _ & -> & -> & ->).
  repeat split; try (by apply js_or_clean).
  unfold js_or. by destruct (truthy _) eqn:Ht; [intros Hu; rewrite Hu in Ht|].
Qed.

(** ** X15 and X16: whose conversations a fetch lists *)

Lemma mapConversation_participant uid r :
  participant uid (UseFetchConversations.mapConversation r) = participant uid r.
Proof.
  unfold participant. by destruct (mapConversation_fields r) as (_ & -> & _).
Qed.

Lemma list_query_participant t uid col l r :
  data (run_query t (Query None [Contains "participants" [uid]] (Some col) None)) = Some l ->
  r ∈ l -> participant uid r = true.
Proof.
  unfold run_query. destruct (unknown_column _ _); [done|].
  cbn [q_order_desc q_limit q_select q_filters from_option project data ok_rows].
  intros [= <-]. rewrite list_fmap_id, order_desc_perm, list_elem_of_filter.
  intros [Hm _]. unfold matches_all in Hm. cbn [forallb matches] in Hm.
  unfold participant. by destruct (cell_contains _ _).
Qed.

(** X15.  Whatever the store holds and whichever requests fail, every
    conversation that [fetchConversations] leaves in the list (either
    implementation) has the signed-in user among its participants. *)
Theorem fetched_conversations_are_own (uid : string) (faults : list (option string))
    (s : store) (c : client) :
  Forall (fun r => participant uid r = true)
    (conversations (ui (run (UseConversations.fetchConversations (Some uid))
                            faults s c).1.2)) /\
  Forall (fun r => participant uid r = true)
    (conversations (ui (run (UseFetchConversations.fetchConversations (Some uid))
                            faults s c).1.2)).
Proof.
  split.
  - destruct (run_fetchConversations uid faults s c) as (fault & _ & ->).
    cbn zeta. destruct fault as [m|]; cbn; [constructor|].
    destruct (error _); cbn; [constructor|].
    destruct (data _) as [l|] eqn:Hd; cbn; [|constructor].
    apply Forall_forall. intros r Hr. by eapply list_query_participant.
  - rewrite run_fetchConversations_mapped. cbn zeta.
    destruct (default None (head faults)) as [m|]; cbn; [constructor|].
    destruct (error _); cbn; [constructor|].
    destruct (data _) as [l|] eqn:Hd; [|constructor].
    apply Forall_fmap, Forall_forall. intros r Hr. cbn.
    rewrite mapConversation_participant. by eapply list_query_participant.
Qed.

(** X16.  On a table that has the columns the query names, a fetch of the
    conversations hook that meets no failing request lists exactly the stored
    conversations that have the user among their participants, each once for
    each time it is stored. *)
Theorem fetched_conversations_are_all_own (uid : string) (s : store) (c : client) :
  ["participants"; "lastMessageAt"] ⊆ columns (conversations_tbl s) ->
  fetched_raw uid s c ≡ₚ
  filter (fun r => participant uid r = true) (rows (conversations_tbl s)).
Proof.
  intros Hcols. unfold fetched_raw.
  destruct (run_fetchConversations uid [] s c) as (fault & Hfault & ->).
  rewrite (Hfault eq_refl). cbn zeta.
  unfold UseConversations.list_query. rewrite run_query_list.
  - cbn. rewrite order_desc_perm. apply reflexive_eq, list_filter_iff.
    intros r. unfold matches_all, participant. cbn [forallb matches].
    rewrite andb_true_r. by destruct (cell_contains _ _).
  - unfold unknown_column.
    cbn [q_filters q_order_desc q_select fmap list_fmap filter_col from_option app].
    rewrite filter_none; [done|].
    repeat constructor; intros Hnot; apply Hnot, Hcols; rewrite !elem_of_cons; tauto.
Qed.

(** X16, witness: the store with the one conversation of u1 and u2. *)
Lemma fetched_conversations_are_all_own_witness :
  fetched_raw "u1" store_one (fresh_client 0) ≡ₚ
  filter (fun r => participant "u1" r = true) (rows (conversations_tbl store_one)).
Proof.
  apply fetched_conversations_are_all_own.
  intros x. cbn. unfold camel_columns. rewrite !elem_of_cons, elem_of_nil. tauto.
Defined.

(** ** X17: selecting another conversation fetches its messages twice *)

(** What [handleSelectConversation] leaves: the selection and the requests
    in flight. *)
Lemma handleSelectConversation_starts_both_aux (conv : obj) (sys : Sched.sys unit) :
  let opened := Sched.handle (UseMessaging.handleSelectConversation conv) sys in
  currentConversation (ui (Sched.cl opened)) = Some conv /\
  Sched.pending opened =
    Sched.pending sys ++
    OHook (FetchMessagesBase (get conv "id")) ::
    (if js_gt0 (get conv "unreadCount")
     then [OHook (MarkMessagesAsRead (get conv "id"))] else []).
Proof.
  unfold UseMessaging.handleSelectConversation, Sched.handle, Sched.pending.
  destruct (js_gt0 _); cbn; rewrite ?fmap_app, <- ?app_assoc; done.
Qed.

Lemma spawn_fetchMessages (cid : jsval) (sys : Sched.sys unit) :
  Sched.pending (Sched.spawn (UseMessaging.fetchMessagesOrToast cid) sys) =
  Sched.pending sys ++ [OHook (FetchMessagesBase cid)].
Proof. unfold Sched.pending. cbn. by rewrite fmap_app. Qed.

(** X17.  When the user selects a conversation, [handleSelectConversation]
    starts the fetch of its messages (and markRead when it has unread
    messages); when its id is not the id of the conversation that was
    current, the effect on the current conversation then starts a second
    fetch of the same messages.  Selecting the current conversation again
    starts one fetch. *)
Theorem select_fetches (conv : obj) (sys : Sched.sys unit) :
  Sched.pending (select conv sys) =
  Sched.pending sys ++
  OHook (FetchMessagesBase (get conv "id")) ::
  (if js_gt0 (get conv "unreadCount")
   then [OHook (MarkMessagesAsRead (get conv "id"))] else []) ++
  (if decide (get conv "id" = current_id (Sched.cl sys)) then []
   else [OHook (FetchMessagesBase (get conv "id"))]).
Proof.
  unfold select, render_after.
  destruct (handleSelectConversation_starts_both_aux conv sys) as (Hcur & Hpend).
  set (opened := Sched.handle (UseMessaging.handleSelectConversation conv) sys) in *.
  assert (Hid : current_id (Sched.cl opened) = get conv "id").
  { unfold current_id. by rewrite Hcur. }
  rewrite Hid.
  destruct (decide (get conv "id" = current_id (Sched.cl sys))) as [Heq|Hne].
  - rewrite app_nil_r. exact Hpend.
  - unfold UseMessaging.onCurrentConversationChange. rewrite Hcur.
    change (Sched.handle [Spawn (UseMessaging.fetchMessagesOrToast (get conv "id"))] opened)
      with (Sched.spawn (UseMessaging.fetchMessagesOrToast (get conv "id")) opened).
    rewrite spawn_fetchMessages, Hpend, <- app_assoc. done.
Qed.

(** ** White space, as [trim] sees it *)

Lemma blank_white_space (w : list nat) (s : string) :
  w ∈ white_space -> blank (bytes w +:+ s) = blank s.
Proof.
  unfold white_space. rewrite !elem_of_cons, elem_of_nil.
  intros H. repeat (destruct H as [->|H]; [reflexivity|]). destruct H.
Qed.

Lemma blank_spaces (ws : list (list nat)) :
  Forall (fun w => w ∈ white_space) ws -> blank (spaces ws) = true.
Proof.
  induction 1 as [|w ws Hw _ IH]; [reflexivity|].
  cbn [spaces foldr]. rewrite blank_white_space by assumption. exact IH.
Qed.

Lemma is_space_white_space (a : Ascii.ascii) :
  is_space a = true -> [Ascii.nat_of_ascii a] ∈ white_space.
Proof.
  unfold is_space. intros H%bool_decide_eq_true.
  revert H. generalize (Ascii.nat_of_ascii a) as n. intros n.
  unfold white_space. rewrite !elem_of_cons, elem_of_nil.
  intros H. repeat (destruct H as [->|H]; [tauto|]). destruct H.
Qed.

Lemma is_space2_white_space (a b : nat) :
  is_space2 a b = true -> [a; b] ∈ white_space.
Proof.
  unfold is_space2. rewrite andb_true_iff, !Nat.eqb_eq. intros [-> ->].
  apply (bool_decide_unpack _). reflexivity.
Qed.

Lemma is_space3_white_space (a b c : nat) :
  is_space3 a b c = true -> [a; b; c] ∈ white_space.
Proof.
  unfold is_space3.
  rewrite !orb_true_iff, !andb_true_iff, !orb_true_iff, !andb_true_iff,
    !Nat.eqb_eq, !Nat.leb_le.
  intros H.
  assert (Hc : a = 225 /\ b = 154 /\ c = 128 \/
               a = 226 /\ b = 128 /\
                 (c = 128 \/ c = 129 \/ c = 130 \/ c = 131 \/ c = 132 \/ c = 133 \/
                  c = 134 \/ c = 135 \/ c = 136 \/ c = 137 \/ c = 138 \/
                  c = 168 \/ c = 169 \/ c = 175) \/
               a = 226 /\ b = 129 /\ c = 159 \/
               a = 227 /\ b = 128 /\ c = 128 \/
               a = 239 /\ b = 187 /\ c = 191) by lia.
  clear H.
  repeat match goal with
         | H : _ \/ _ |- _ => destruct H as [H|H]
         | H : _ /\ _ |- _ => destruct H as [? H]
         end; subst; apply (bool_decide_unpack _); reflexivity.
Qed.

Lemma bytes_nat_of_ascii (a : Ascii.ascii) (s : string) :
  bytes [Ascii.nat_of_ascii a] +:+ s = String a s.
Proof. cbn. by rewrite Ascii.ascii_nat_embedding. Qed.

(** A blank string is empty or starts with the encoding of one white space
    character, the rest being blank. *)
Lemma blank_inv (s : string) :
  blank s = true ->
  s = EmptyString \/
  exists w s', w ∈ white_space /\ w <> [] /\ s = bytes w +:+ s' /\ blank s' = true.
Proof.
  destruct s as [|a rest]; [by left|]. intros H. right. cbn [blank] in H.
  destruct (is_space a) eqn:Ha.
  { exists [Ascii.nat_of_ascii a], rest.
    split; [by apply is_space_white_space|].
    split; [done|]. split; [|done]. by rewrite bytes_nat_of_ascii. }
  destruct rest as [|b rest2]; [done|].
  destruct (is_space2 _ _) eqn:Hab.
  { exists [Ascii.nat_of_ascii a; Ascii.nat_of_ascii b], rest2.
    split; [by apply is_space2_white_space|].
    split; [done|]. split; [|done].
    cbn. by rewrite !Ascii.ascii_nat_embedding. }
  destruct rest2 as [|c rest3]; [done|].
  apply andb_true_iff in H as [Habc H].
  exists [Ascii.nat_of_ascii a; Ascii.nat_of_ascii b; Ascii.nat_of_ascii c], rest3.
  split; [by apply is_space3_white_space|].
  split; [done|]. split; [|done].
  cbn. by rewrite !Ascii.ascii_nat_embedding.
Qed.

Lemma length_bytes_app (w : list nat) (s : string) :
  String.length (bytes w +:+ s) = length w + String.length s.
Proof. induction w as [|n w IH]; [done|]. cbn. by rewrite <- IH. Qed.

(** [blank] holds of the strings made of the white space that [trim] strips,
    and of no other. *)
Lemma blank_spec (s : string) :
  blank s = true <->
  exists ws, Forall (fun w => w ∈ white_space) ws /\ s = spaces ws.
Proof.
  split.
  - remember (String.length s) as n eqn:Hn.
    revert s Hn. induction (lt_wf n) as [n _ IH]. intros s -> H.
    destruct (blank_inv s H) as [->|(w & s' & Hw & Hne & -> & H')].
    + by exists [].
    + destruct (IH (String.length s')) with (s := s') as (ws & Hws & ->); [|done|done|].
      { rewrite length_bytes_app. destruct w; [done|]. cbn. lia. }
      exists (w :: ws). split; [by constructor|done].
  - intros (ws & Hws & ->). by apply blank_spaces.
Qed.

(** The ASCII white space, the no-break space, the ideographic space, the
    byte-order mark and the line separators are blank; a letter, or a lone
    lead byte, is not. *)
Example blank_examples :
  blank (bytes [32; 9; 10]) = true /\
  blank (bytes [194; 160]) = true /\
  blank (bytes [227; 128; 128]) = true /\
  blank (bytes [239; 187; 191]) = true /\
  blank (bytes [226; 128; 168; 226; 128; 169]) = true /\
  blank (bytes [225; 154; 128; 226; 128; 138; 226; 128; 175; 226; 129; 159]) = true /\
  blank (bytes [32; 97]) = false /\
  blank (bytes [194]) = false /\
  blank (bytes [226; 128; 139]) = false /\
  blank (bytes [194; 161]) = false.
Proof. repeat split; reflexivity. Qed.

(** With no selected file, a content made of white space only, whatever its
    encoding, sends nothing: the call ends at once and leaves the store and
    the client as they were. *)
Lemma view_send_white_space (user : option string) (cid : string)
    (ws : list (list nat)) (faults : list (option string)) (s : store) (c : client) :
  Forall (fun w => w ∈ white_space) ws ->
  selectedFiles (vw c) = [] ->
  run (view_send user cid (spaces ws)) faults s c = (s, c, tt).
Proof.
  intros Hws Hf.
  unfold view_send, ConversationView.handleSendMessage. cbn [run].
  by rewrite blank_spaces, Hf.
Qed.

(** A no-break space followed by an ideographic space is such a content. *)
Example view_send_no_break_space :
  run (view_send (Some "u1") "c1" (bytes [194; 160; 227; 128; 128])) []
      empty_store (fresh_client 0) = (empty_store, fresh_client 0, tt).
Proof. reflexivity. Qed.
